(** * Weather dashboard (src/App.tsx, src/types.ts): a shallow embedding

    The React component [App] of src/App.tsx keeps six pieces of view state,
    four asynchronous functions ([fetchWeatherData], [refreshWeather],
    [loadInitialData], [handleSearch]) and two render helpers
    ([convertTemp], [formatTemp]).  The asynchronous functions are embedded
    in a small state-and-exception monad over a [World] (the component
    state and the list of HTTP requests issued so far); the weather API and
    the clock are oracles of the environment. *)

From Stdlib Require Import ZArith List String Ascii Bool Lia DecimalString.
From Stdlib Require Import Floats.SpecFloat.
Import ListNotations.

Local Open Scope string_scope.
Local Open Scope Z_scope.

(** ** JavaScript numbers

    A JS [number] is an IEEE 754 binary64 value.  It is modelled by the
    Standard Library's [spec_float] with the binary64 parameters, whose
    operations round to nearest, ties to even, as JS arithmetic does. *)

Module Number.

Definition t := spec_float.

Definition prec : Z := 53.
Definition emax : Z := 1024.

Definition mul : t -> t -> t := SFmul prec emax.
Definition div : t -> t -> t := SFdiv prec emax.
Definition add : t -> t -> t := SFadd prec emax.

(** The number denoted by an integer literal of the source. *)
Definition of_Z (z : Z) : t := binary_normalize prec emax z 0 false.

(** [floor (n / d + 1/2)]: the integer closest to the rational [n / d],
    the larger of the two on a tie. *)
Definition round_half_up (n d : Z) : Z := (2 * n + d) / (2 * d).

(** The mantissa [m] with the sign [s] ([true] is minus). *)
Definition signed (s : bool) (m : positive) : Z :=
  if s then Z.neg m else Z.pos m.

(** [Math.round]: the integral number closest to [x], ties towards
    +Infinity; NaN, the infinities, the zeros and integral values are
    returned as they are, and a negative value that rounds to zero gives
    -0.  An integral result is returned with exponent 0. *)
Definition Math_round (x : t) : t :=
  match x with
  | S754_finite s m e =>
      if 0 <=? e then x
      else
        let r := round_half_up (signed s m) (2 ^ (- e)) in
        match r with
        | Z0 => S754_zero s
        | Zpos p => S754_finite false p 0
        | Zneg p => S754_finite true p 0
        end
  | _ => x
  end.

(** *** Number::toString (radix 10) *)

Definition digits (z : Z) : string := NilZero.string_of_int (Z.to_int z).

Fixpoint zeros (n : nat) : string :=
  match n with
  | O => ""
  | S n' => String "0" (zeros n')
  end.

(** The canonical binary64 mantissa and exponent of [m * 2 ^ e]. *)
Definition canonical (m : positive) (e : Z) : Z * Z :=
  match binary_round prec emax false m e with
  | S754_finite _ m' e' => (Z.pos m', e')
  | _ => (Z.pos m, e)
  end.

(** The decimal integers [s] for which [s * 10 ^ p] reads back as the
    binary64 value [m * 2 ^ e] ([m], [e] canonical): the bounds of the
    interval of such [s], and the one closest to the value.  All three
    are computed exactly, over the common denominator [den]. *)
Definition candidates (m e p : Z) : Z * Z * Z :=
  let num := 4 * m * 2 ^ Z.max e 0 in
  let den := 4 * 2 ^ Z.max (- e) 0 in
  let up := 2 * 2 ^ Z.max e 0 in
  let down := if (m =? 2 ^ 52) && (-1074 <? e) then 2 ^ Z.max e 0 else up in
  let a := den * 10 ^ Z.max p 0 in
  let b := 10 ^ Z.max (- p) 0 in
  let lo := (num - down) * b in
  let hi := (num + up) * b in
  let closed := Z.even m in
  let smin :=
    if closed then (lo + a - 1) / a else lo / a + 1 in
  let smax :=
    if closed then hi / a else (hi + a - 1) / a - 1 in
  let mid := (2 * num * b + a) / (2 * a) in
  (smin, smax, Z.max smin (Z.min smax mid)).

(** The shortest decimal [s * 10 ^ p] that reads back as the value: the
    largest [p] for which a candidate [s >= 1] exists. *)
Fixpoint shortest (fuel : nat) (m e p : Z) : Z * Z :=
  match fuel with
  | O => (m * 2 ^ e, 0)
  | S fuel' =>
      let '(smin, smax, s) := candidates m e p in
      if (smin <=? smax) && (1 <=? smax) then (Z.max 1 s, p)
      else shortest fuel' m e (p - 1)
  end.

Definition length_Z (s : string) : Z := Z.of_nat (String.length s).

(** The layout of Number::toString for the decimal digits [ds] ([k] of
    them) of a value in [10 ^ (n - 1), 10 ^ n). *)
Definition layout (ds : string) (n : Z) : string :=
  let k := length_Z ds in
  if (k <=? n) && (n <=? 21) then ds ++ zeros (Z.to_nat (n - k))
  else if (0 <? n) && (n <=? 21) then
    substring 0 (Z.to_nat n) ds ++ "." ++
    substring (Z.to_nat n) (Z.to_nat (k - n)) ds
  else if (-6 <? n) && (n <=? 0) then
    "0." ++ zeros (Z.to_nat (- n)) ++ ds
  else
    let ex := n - 1 in
    let sign := if ex <? 0 then "-" else "+" in
    let mant :=
      if k =? 1 then ds
      else substring 0 1 ds ++ "." ++ substring 1 (Z.to_nat (k - 1)) ds in
    mant ++ "e" ++ sign ++ digits (Z.abs ex).

(** The value [m * 2 ^ e] when it is an integer. *)
Definition integral (m : positive) (e : Z) : option Z :=
  if 0 <=? e then Some (Z.pos m * 2 ^ e)
  else if Z.pos m mod 2 ^ (- e) =? 0 then Some (Z.pos m / 2 ^ (- e))
  else None.

(** Number::toString of the positive finite value [m * 2 ^ e] by its
    shortest decimal.  The search starts two above an upper estimate of
    the decimal exponent and needs fewer than 40 steps, a binary64 value
    having at most 17 significant digits. *)
Definition toString_shortest (m : positive) (e : Z) : string :=
  let '(m', e') := canonical m e in
  let '(s, p) :=
    shortest 40 m' e' (((Z.log2 m' + e' + 1) * 30103) / 100000 + 2) in
  layout (digits s) (length_Z (digits s) + p).

(** Number::toString of a positive finite value.  An integer below
    [2 ^ 53] is its own shortest decimal, so it is printed directly. *)
Definition toString_pos (m : positive) (e : Z) : string :=
  match integral m e with
  | Some z => if z <? 2 ^ 53 then digits z else toString_shortest m e
  | None => toString_shortest m e
  end.

Definition toString (x : t) : string :=
  match x with
  | S754_nan => "NaN"
  | S754_zero _ => "0"
  | S754_infinity false => "Infinity"
  | S754_infinity true => "-Infinity"
  | S754_finite false m e => toString_pos m e
  | S754_finite true m e => "-" ++ toString_pos m e
  end.

(** *** The exact value of a finite number

    [numerator x / denominator x] is the rational a finite [x] denotes;
    [nearest_integer x] is the integer closest to it, the larger one on
    a tie. *)
Definition numerator (x : t) : Z :=
  match x with
  | S754_finite s m e => signed s m * 2 ^ Z.max e 0
  | _ => 0
  end.

Definition denominator (x : t) : Z :=
  match x with
  | S754_finite _ _ e => 2 ^ Z.max (- e) 0
  | _ => 1
  end.

Definition nearest_integer (x : t) : Z :=
  round_half_up (numerator x) (denominator x).

End Number.

(** ** JavaScript strings

    A JS string is modelled by the UTF-8 bytes of its text.  Equality of
    two such strings is equality of the texts, which is what [===] and
    [!==] compare. *)

Module JsString.

(** UTF-8 encoding of a code point of the Basic Multilingual Plane. *)
Definition utf8 (cp : N) : string :=
  let byte (n : N) := ascii_of_N n in
  (if cp <? 128 then String (byte cp) ""
   else if cp <? 2048 then
     String (byte (192 + cp / 64)) (String (byte (128 + cp mod 64)) "")
   else
     String (byte (224 + cp / 4096))
       (String (byte (128 + (cp / 64) mod 64))
          (String (byte (128 + cp mod 64)) "")))%N.

(** The code points [String.prototype.trim] strips: ECMAScript's
    WhiteSpace (TAB, VT, FF, ZWNBSP and the Unicode category Zs) and
    LineTerminator (LF, CR, LS, PS). *)
Definition WhiteSpace : list N :=
  [ 9; 10; 11; 12; 13; 32; 160; 5760;
    8192; 8193; 8194; 8195; 8196; 8197; 8198; 8199; 8200; 8201; 8202;
    8232; 8233; 8239; 8287; 12288; 65279 ]%N.

(** A string made of such code points only (the empty string included). *)
Inductive whitespace_only : string -> Prop :=
| ws_empty : whitespace_only ""
| ws_more (cp : N) (s : string) :
    In cp WhiteSpace -> whitespace_only s -> whitespace_only (utf8 cp ++ s).

(** Recognisers of an encoded whitespace code point of one, two and
    three bytes. *)
Definition ws1 (a : ascii) : bool :=
  let a := N_of_ascii a in
  ((9 <=? a) && (a <=? 13) || (a =? 32))%N.

Definition ws2 (a b : ascii) : bool :=
  ((N_of_ascii a =? 194) && (N_of_ascii b =? 160))%N.

Definition ws3 (a b c : ascii) : bool :=
  let a := N_of_ascii a in
  let b := N_of_ascii b in
  let c := N_of_ascii c in
  ((a =? 225) && (b =? 154) && (c =? 128)
   || (a =? 226) && (b =? 128)
      && ((128 <=? c) && (c <=? 138) || (c =? 168) || (c =? 169) || (c =? 175))
   || (a =? 226) && (b =? 129) && (c =? 159)
   || (a =? 227) && (b =? 128) && (c =? 128)
   || (a =? 239) && (b =? 187) && (c =? 191))%N.

Fixpoint trimStart (s : string) : string :=
  match s with
  | String a r1 =>
      if ws1 a then trimStart r1
      else
        match r1 with
        | String b r2 =>
            if ws2 a b then trimStart r2
            else
              match r2 with
              | String c r3 => if ws3 a b c then trimStart r3 else s
              | EmptyString => s
              end
        | EmptyString => s
        end
  | EmptyString => s
  end.

Fixpoint trimEnd (s : string) : string :=
  match s with
  | String a r =>
      match trimStart s with
      | EmptyString => ""
      | String _ _ => String a (trimEnd r)
      end
  | EmptyString => ""
  end.

(** [String.prototype.trim]. *)
Definition trim (s : string) : string := trimEnd (trimStart s).

(** Truthiness of a string: the empty string is the only falsy one. *)
Definition truthy (s : string) : bool :=
  match s with
  | EmptyString => false
  | String _ _ => true
  end.

End JsString.

(** Tactic: a string that starts with an encoded whitespace code point
    is whitespace-only when its rest is. *)
Ltac pick_ws_at cp := apply (JsString.ws_more cp); [ simpl; tauto | ].

Ltac pick_ws :=
  first
    [ pick_ws_at 9%N | pick_ws_at 10%N | pick_ws_at 11%N | pick_ws_at 12%N
    | pick_ws_at 13%N | pick_ws_at 32%N | pick_ws_at 160%N
    | pick_ws_at 5760%N | pick_ws_at 8192%N | pick_ws_at 8193%N
    | pick_ws_at 8194%N | pick_ws_at 8195%N | pick_ws_at 8196%N
    | pick_ws_at 8197%N | pick_ws_at 8198%N | pick_ws_at 8199%N
    | pick_ws_at 8200%N | pick_ws_at 8201%N | pick_ws_at 8202%N
    | pick_ws_at 8232%N | pick_ws_at 8233%N | pick_ws_at 8239%N
    | pick_ws_at 8287%N | pick_ws_at 12288%N | pick_ws_at 65279%N ].

(** ** src/types.ts *)

(** A [Date], as milliseconds since the epoch. *)
Definition Date := Z.

(** The [id] of a record is the city identifier of the API, an integer;
    on integers [===] is equality. *)
Module WeatherData.
Record t := {
  id : Z;
  city : string;
  temperature : Number.t;
  feelsLike : Number.t;
  description : string;
  humidity : Number.t;
  windSpeed : Number.t;
  icon : string;
  lastUpdated : Date
}.
End WeatherData.

Module WeatherResponse.
Record main_t := { temp : Number.t; feels_like : Number.t; humidity : Number.t }.
Record weather_t := { description : string; icon : string }.
Record wind_t := { speed : Number.t }.
Record t := {
  main : main_t;
  weather : list weather_t;
  wind : wind_t;
  name : string;
  id : Z
}.
End WeatherResponse.

(** ** The environment of the component *)

(** How the promise of one [axios.get] settles: it rejects on a network
    error and on a status outside 2xx, and resolves with the parsed body
    otherwise. *)
Inductive AxiosOutcome :=
| Rejected
| Resolved (data : WeatherResponse.t).

(** What the component does not control: the API key of the build, how the
    [k]-th request of the run settles, and the clock read when the answer
    to the [k]-th request is processed. *)
Record Env := {
  API_KEY : string;
  axios_get_outcome : nat -> string -> AxiosOutcome;
  Date_now : nat -> Date
}.

Definition DEFAULT_CITIES : list string :=
  ["London"; "New York"; "Tokyo"; "Paris"; "Sydney"].

(** ** Component state (the six [useState] cells of [App]) *)

Record AppState := {
  weatherData : list WeatherData.t;
  loading : bool;
  searchCity : string;
  error : string;
  isCelsius : bool;
  retrying : bool
}.

Definition initial_state : AppState :=
  {| weatherData := []; loading := true; searchCity := ""; error := "";
     isCelsius := true; retrying := false |}.

(** The component state together with the URLs requested so far. *)
Record World := {
  app : AppState;
  requests : list string
}.

Definition initial_world : World :=
  {| app := initial_state; requests := [] |}.

(** ** Render helpers (App.tsx lines 17-23) *)

Definition convertTemp (isCelsius : bool) (celsius : Number.t) : Number.t :=
  if isCelsius then celsius
  else Number.add
         (Number.div (Number.mul celsius (Number.of_Z 9)) (Number.of_Z 5))
         (Number.of_Z 32).

Definition formatTemp (isCelsius : bool) (temp : Number.t) : string :=
  Number.toString (Number.Math_round temp) ++ "°" ++
  (if isCelsius then "C" else "F").

(** The temperature text of a card (App.tsx lines 172 and 175):
    [formatTemp(convertTemp(celsius))] under the display flag. *)
Definition displayTemp (celsius : Number.t) (useCelsius : bool) : string :=
  formatTemp useCelsius (convertTemp useCelsius celsius).

(** ** The monad of the handlers

    A handler threads the [World] and may throw.  [await] is sequential
    composition: what the claims below speak of is one handler run to
    completion. *)

Inductive JsError := AxiosError | TypeError.

Inductive Completion (A : Type) :=
| Normal (a : A)
| Throw (e : JsError).
Arguments Normal {A} a.
Arguments Throw {A} e.

Definition M (A : Type) : Type := World -> Completion A * World.

Definition ret {A} (a : A) : M A := fun w => (Normal a, w).

Definition throw {A} (e : JsError) : M A := fun w => (Throw e, w).

Definition bind {A B} (m : M A) (k : A -> M B) : M B :=
  fun w =>
    match m w with
    | (Normal a, w') => k a w'
    | (Throw e, w') => (Throw e, w')
    end.

Definition try_catch {A} (body : M A) (handler : JsError -> M A) : M A :=
  fun w =>
    match body w with
    | (Normal a, w') => (Normal a, w')
    | (Throw e, w') => handler e w'
    end.

Declare Scope js_scope.
Delimit Scope js_scope with js.
Notation "x <- m ;; k" := (bind m (fun x => k))
  (at level 100, m at next level, right associativity) : js_scope.
Notation "m ;; k" := (bind m (fun _ => k))
  (at level 100, right associativity) : js_scope.

(** [array.map(f)] with an asynchronous [f], awaited by [Promise.all]:
    the calls start in the order of the array, the results come back in
    the order of the array, and a rejection rejects the whole. *)
Fixpoint mapM {A B} (f : A -> M B) (l : list A) : M (list B) :=
  match l with
  | [] => ret []
  | x :: l' => (y <- f x ;; ys <- mapM f l' ;; ret (y :: ys))%js
  end.

(** [results.filter(data => data !== null)]. *)
Definition non_null {A} (results : list (option A)) : list A :=
  flat_map (fun data => match data with Some d => [d] | None => [] end) results.

(** *** State setters *)

Definition update (f : AppState -> AppState) : M unit :=
  fun w => (Normal tt, {| app := f (app w); requests := requests w |}).

(** [setWeatherData(updater)]: the updater receives the current list. *)
Definition setWeatherData (updater : list WeatherData.t -> list WeatherData.t)
  : M unit :=
  update (fun st =>
    {| weatherData := updater (weatherData st); loading := loading st;
       searchCity := searchCity st; error := error st;
       isCelsius := isCelsius st; retrying := retrying st |}).

Definition setLoading (b : bool) : M unit :=
  update (fun st =>
    {| weatherData := weatherData st; loading := b;
       searchCity := searchCity st; error := error st;
       isCelsius := isCelsius st; retrying := retrying st |}).

Definition setSearchCity (s : string) : M unit :=
  update (fun st =>
    {| weatherData := weatherData st; loading := loading st;
       searchCity := s; error := error st;
       isCelsius := isCelsius st; retrying := retrying st |}).

Definition setError (s : string) : M unit :=
  update (fun st =>
    {| weatherData := weatherData st; loading := loading st;
       searchCity := searchCity st; error := s;
       isCelsius := isCelsius st; retrying := retrying st |}).

Definition setIsCelsius (b : bool) : M unit :=
  update (fun st =>
    {| weatherData := weatherData st; loading := loading st;
       searchCity := searchCity st; error := error st;
       isCelsius := b; retrying := retrying st |}).

Definition setRetrying (b : bool) : M unit :=
  update (fun st =>
    {| weatherData := weatherData st; loading := loading st;
       searchCity := searchCity st; error := error st;
       isCelsius := isCelsius st; retrying := b |}).

(** ** The handlers of [App] *)

Section Handlers.

Variable env : Env.

Local Open Scope js_scope.

(** The URL of App.tsx line 36. *)
Definition weather_url (city : string) : string :=
  "https://api.openweathermap.org/data/2.5/weather?q=" ++ city ++
  "&appid=" ++ API_KEY env ++ "&units=metric".

(** [await axios.get(url)]: the request is issued, and the call returns
    the response or throws. *)
Definition axios_get (url : string) : M WeatherResponse.t :=
  fun w =>
    let w' := {| app := app w; requests := (requests w ++ [url])%list |} in
    match axios_get_outcome env (List.length (requests w)) url with
    | Resolved data => (Normal data, w')
    | Rejected => (Throw AxiosError, w')
    end.

(** [array[0].field]: reading a property of [undefined] throws. *)
Definition first_entry (l : list WeatherResponse.weather_t)
  : M WeatherResponse.weather_t :=
  match l with
  | entry :: _ => ret entry
  | [] => throw TypeError
  end.

(** [new Date()], read after the latest request was answered. *)
Definition new_Date : M Date :=
  fun w => (Normal (Date_now env (Nat.pred (List.length (requests w)))), w).

(** App.tsx lines 33-54.  The [catch] block logs to the console and
    returns [null]. *)
Definition fetchWeatherData (city : string) : M (option WeatherData.t) :=
  try_catch
    (response <- axios_get (weather_url city) ;;
     entry <- first_entry (WeatherResponse.weather response) ;;
     now <- new_Date ;;
     ret (Some
       {| WeatherData.id := WeatherResponse.id response;
          WeatherData.city := WeatherResponse.name response;
          WeatherData.temperature :=
            WeatherResponse.temp (WeatherResponse.main response);
          WeatherData.feelsLike :=
            WeatherResponse.feels_like (WeatherResponse.main response);
          WeatherData.description := WeatherResponse.description entry;
          WeatherData.humidity :=
            WeatherResponse.humidity (WeatherResponse.main response);
          WeatherData.windSpeed :=
            WeatherResponse.speed (WeatherResponse.wind response);
          WeatherData.icon := WeatherResponse.icon entry;
          WeatherData.lastUpdated := now |}))
    (fun _error => ret None).

(** App.tsx lines 56-69.  [snapshot] is the state of the render whose
    closure the handler is: [weatherData.find] reads it, while the
    updater of [setWeatherData] receives the current list. *)
Definition refreshWeather (snapshot : AppState) (cityId : Z) : M unit :=
  match find (fun data => WeatherData.id data =? cityId)
             (weatherData snapshot) with
  | None => ret tt
  | Some cityToRefresh =>
      setRetrying true ;;
      updatedData <- fetchWeatherData (WeatherData.city cityToRefresh) ;;
      setRetrying false ;;
      match updatedData with
      | Some updated =>
          setWeatherData (fun prev =>
            map (fun data =>
                   if WeatherData.id data =? cityId then updated else data)
                prev)
      | None => ret tt
      end
  end.

(** App.tsx lines 72-77, for a list of cities. *)
Definition loadInitialDataFor (cities : list string) : M unit :=
  results <- mapM fetchWeatherData cities ;;
  setWeatherData (fun _ => non_null results) ;;
  setLoading false.

Definition loadInitialData : M unit := loadInitialDataFor DEFAULT_CITIES.

(** The [try] block of [handleSearch], App.tsx lines 90-99. *)
Definition handleSearch_try (snapshot : AppState) : M unit :=
  newWeatherData <- fetchWeatherData (searchCity snapshot) ;;
  match newWeatherData with
  | Some new =>
      setWeatherData (fun prev =>
        let filtered :=
          filter (fun item =>
                    negb (WeatherData.city item =? WeatherData.city new)%string)
                 prev in
        new :: filtered) ;;
      setSearchCity ""
  | None => setError "City not found. Please try again."
  end.

(** App.tsx lines 82-105 ([e.preventDefault()] does not touch the
    component). *)
Definition handleSearch (snapshot : AppState) : M unit :=
  if negb (JsString.truthy (JsString.trim (searchCity snapshot))) then ret tt
  else
    setLoading true ;;
    setError "" ;;
    try_catch
      (handleSearch_try snapshot)
      (fun _error =>
         setError "Failed to fetch weather data. Please try again.") ;;
    setLoading false.

(** *** The operations as the user triggers them

    An event runs the handler of the latest render, whose snapshot is
    the current state. *)

Definition initialize (cities : list string) (w : World) : World :=
  snd (loadInitialDataFor cities w).

Definition search (w : World) : World :=
  snd (handleSearch (app w) w).

Definition refresh (cityId : Z) (w : World) : World :=
  snd (refreshWeather (app w) cityId w).

(** What one fetch for [city] yields when it is the [k]-th request of
    the run: the record built from the body, or nothing when the promise
    rejects or the body has no weather entry. *)
Definition fetched (k : nat) (city : string) : option WeatherData.t :=
  match axios_get_outcome env k (weather_url city) with
  | Rejected => None
  | Resolved data =>
      match WeatherResponse.weather data with
      | [] => None
      | entry :: _ =>
          Some
            {| WeatherData.id := WeatherResponse.id data;
               WeatherData.city := WeatherResponse.name data;
               WeatherData.temperature :=
                 WeatherResponse.temp (WeatherResponse.main data);
               WeatherData.feelsLike :=
                 WeatherResponse.feels_like (WeatherResponse.main data);
               WeatherData.description := WeatherResponse.description entry;
               WeatherData.humidity :=
                 WeatherResponse.humidity (WeatherResponse.main data);
               WeatherData.windSpeed :=
                 WeatherResponse.speed (WeatherResponse.wind data);
               WeatherData.icon := WeatherResponse.icon entry;
               WeatherData.lastUpdated := Date_now env k |}
      end
  end.

End Handlers.

(** ** Runs of the dashboard

    The effect of [useEffect] runs [loadInitialData] once, on mount; after
    that every user event runs the handler of the latest render.
    [perform] and [run] run each handler to its end before the next event;
    the runs in which handlers overlap are those of [play], below. *)

Inductive Event :=
| TypeQuery (text : string)      (* onChange of the search box *)
| SubmitSearch                   (* onSubmit of the form *)
| ClickRefresh (cityId : Z)      (* onClick of a card's refresh button *)
| ToggleUnit.                    (* onClick of the unit switch *)

Definition perform (env : Env) (ev : Event) (w : World) : World :=
  match ev with
  | TypeQuery text => snd (setSearchCity text w)
  | SubmitSearch => search env w
  | ClickRefresh cityId => refresh env cityId w
  | ToggleUnit => snd (setIsCelsius (negb (isCelsius (app w))) w)
  end.

Definition mounted (env : Env) : World :=
  initialize env DEFAULT_CITIES initial_world.

Definition run (env : Env) (evs : list Event) : World :=
  fold_left (fun w ev => perform env ev w) evs (mounted env).

(** The collection of a world, and the ids in it, in order. *)
Definition collection (w : World) : list WeatherData.t := weatherData (app w).

Definition ids (l : list WeatherData.t) : list Z := map WeatherData.id l.

(** The record [refresh cityId] re-fetches: the first one with that id. *)
Definition lookup (cityId : Z) (l : list WeatherData.t) : option WeatherData.t :=
  find (fun data => WeatherData.id data =? cityId) l.

(** The successful results of fetching [cities] one after the other, the
    first as the [k]-th request of the run, and the number of failures. *)
Fixpoint successes (env : Env) (k : nat) (cities : list string)
  : list WeatherData.t :=
  match cities with
  | [] => []
  | c :: cs =>
      match fetched env k c with
      | Some d => d :: successes env (S k) cs
      | None => successes env (S k) cs
      end
  end.

Fixpoint failures (env : Env) (k : nat) (cities : list string) : nat :=
  match cities with
  | [] => 0%nat
  | c :: cs =>
      match fetched env k c with
      | Some _ => failures env (S k) cs
      | None => S (failures env (S k) cs)
      end
  end.

(** Number of records of a collection that carry a city name. *)
Definition occurrences (name : string) (l : list WeatherData.t) : nat :=
  List.length (filter (fun item => (WeatherData.city item =? name)%string) l).

(** The world after one more request. *)
Definition requested (w : World) (url : string) : World :=
  {| app := app w; requests := (requests w ++ [url])%list |}.

(** The list [refreshWeather] installs on success. *)
Definition refreshed (cityId : Z) (updated : WeatherData.t)
  (l : list WeatherData.t) : list WeatherData.t :=
  map (fun data => if WeatherData.id data =? cityId then updated else data) l.

(** ** Handlers that overlap

    A handler runs in two parts: up to its [await] when the event fires,
    and from there on when the answers arrive.  In between the component
    is live: the search box and the unit switch always are, the submit
    button unless [loading] holds (App.tsx line 135), and a refresh
    button when the cards are shown and unless [retrying] holds (App.tsx
    lines 145 and 164). *)

(** A handler that waits for its answers: the index of its (first)
    request in the log, and what its second part uses of the first. *)
Inductive Pending :=
| PendingLoad (k : nat) (cities : list string)
| PendingSearch (k : nat) (query : string)
| PendingRefresh (k : nat) (cityId : Z) (city : string).

(** A step of a run: a user event, or the arrival of the answers that
    the [n]-th waiting handler awaits. *)
Inductive Action :=
| User (ev : Event)
| Arrive (n : nat).

Definition remove_nth {A} (n : nat) (l : list A) : list A :=
  (firstn n l ++ skipn (S n) l)%list.

(** The handlers that hold [loading] (the initial load and a search) and
    those that hold [retrying] (a refresh). *)
Definition in_foreground (p : Pending) : bool :=
  match p with
  | PendingRefresh _ _ _ => false
  | _ => true
  end.

Definition foreground (ps : list Pending) : nat :=
  List.length (filter in_foreground ps).

Definition background (ps : list Pending) : nat :=
  List.length (filter (fun p => negb (in_foreground p)) ps).

Section Overlap.

Variable env : Env.

Local Open Scope js_scope.

(** [loadInitialData] up to [await Promise.all] (App.tsx lines 73-74):
    every request is issued. *)
Definition begin_load (cities : list string) (w : World)
  : World * list Pending :=
  ({| app := app w;
      requests := (requests w ++ map (weather_url env) cities)%list |},
   [PendingLoad (List.length (requests w)) cities]).

(** [handleSearch] up to the [await] of its fetch (App.tsx lines 83-90
    and 35). *)
Definition begin_search (w : World) : World * list Pending :=
  if negb (JsString.truthy (JsString.trim (searchCity (app w)))) then (w, [])
  else
    (requested (snd ((setLoading true ;; setError "") w))
       (weather_url env (searchCity (app w))),
     [PendingSearch (List.length (requests w)) (searchCity (app w))]).

(** [refreshWeather] up to the [await] of its fetch (App.tsx lines 57-61
    and 35). *)
Definition begin_refresh (cityId : Z) (w : World) : World * list Pending :=
  match find (fun data => WeatherData.id data =? cityId)
             (weatherData (app w)) with
  | None => (w, [])
  | Some cityToRefresh =>
      (requested (snd (setRetrying true w))
         (weather_url env (WeatherData.city cityToRefresh)),
       [PendingRefresh (List.length (requests w)) cityId
          (WeatherData.city cityToRefresh)])
  end.

(** The second part of a handler, on the state of the moment its answers
    arrive (App.tsx lines 75-76, 91-104 and 62-68).  The answers are
    those of the requests the first part issued. *)
Definition settle (p : Pending) (w : World) : World :=
  match p with
  | PendingLoad k cities =>
      snd ((setWeatherData (fun _ => successes env k cities) ;;
            setLoading false) w)
  | PendingSearch k query =>
      snd ((match fetched env k query with
            | Some new =>
                setWeatherData (fun prev =>
                  new :: filter (fun item =>
                           negb (WeatherData.city item
                                 =? WeatherData.city new)%string)
                         prev) ;;
                setSearchCity ""
            | None => setError "City not found. Please try again."
            end ;;
            setLoading false) w)
  | PendingRefresh k cityId city =>
      snd ((setRetrying false ;;
            match fetched env k city with
            | Some updated =>
                setWeatherData (fun prev =>
                  map (fun data =>
                         if WeatherData.id data =? cityId then updated
                         else data)
                      prev)
            | None => ret tt
            end) w)
  end.

(** One step from a world and its waiting handlers; [None] when the view
    does not offer the event, or no such handler waits. *)
Definition act (a : Action) (d : World * list Pending)
  : option (World * list Pending) :=
  let (w, ps) := d in
  match a with
  | User (TypeQuery text) => Some (perform env (TypeQuery text) w, ps)
  | User ToggleUnit => Some (perform env ToggleUnit w, ps)
  | User SubmitSearch =>
      if loading (app w) then None
      else
        let (w', new) := begin_search w in
        Some (w', (new ++ ps)%list)
  | User (ClickRefresh cityId) =>
      if loading (app w) || retrying (app w) then None
      else
        let (w', new) := begin_refresh cityId w in
        Some (w', (new ++ ps)%list)
  | Arrive n =>
      match nth_error ps n with
      | Some p => Some (settle p w, remove_nth n ps)
      | None => None
      end
  end.

Fixpoint play (actions : list Action) (d : World * list Pending)
  : option (World * list Pending) :=
  match actions with
  | [] => Some d
  | a :: rest =>
      match act a d with
      | Some d' => play rest d'
      | None => None
      end
  end.

(** The component when it mounts: the requests of the initial load are
    out, nothing is answered yet. *)
Definition mounting : World * list Pending :=
  begin_load DEFAULT_CITIES initial_world.

End Overlap.

(** The worlds the component can be in, with the handlers that wait. *)
Definition running (env : Env) (w : World) (ps : list Pending) : Prop :=
  exists actions, play env actions (mounting env) = Some (w, ps).

Definition reachable (env : Env) (w : World) : Prop :=
  exists ps, running env w ps.

(** One operation on the collection whose fetched records do not clash
    with the ids already shown: the successful results of an initial load
    have pairwise distinct ids; a found city carries the id of no record
    the city filter keeps; a refreshed record carries the id it was asked
    for, or an id that is not in the collection. *)
Inductive guarded_step (env : Env) (w : World) : World -> Prop :=
| step_initialize (cities : list string) :
    NoDup (ids (successes env (List.length (requests w)) cities)) ->
    guarded_step env w (initialize env cities w)
| step_search (new : WeatherData.t) :
    ~ JsString.whitespace_only (searchCity (app w)) ->
    fetched env (List.length (requests w)) (searchCity (app w)) = Some new ->
    (forall d, In d (collection w) ->
               WeatherData.id d = WeatherData.id new ->
               WeatherData.city d = WeatherData.city new) ->
    guarded_step env w (search env w)
| step_refresh (cityId : Z) (c updated : WeatherData.t) :
    lookup cityId (collection w) = Some c ->
    fetched env (List.length (requests w)) (WeatherData.city c) = Some updated ->
    (WeatherData.id updated = cityId
     \/ ~ In (WeatherData.id updated) (ids (collection w))) ->
    guarded_step env w (refresh env cityId w).

(** ** Sample data for the examples *)

Definition sample_response (name : string) (id : Z) (temp : Z)
  : WeatherResponse.t :=
  {| WeatherResponse.main :=
       {| WeatherResponse.temp := Number.of_Z temp;
          WeatherResponse.feels_like := Number.of_Z (temp - 1);
          WeatherResponse.humidity := Number.of_Z 60 |};
     WeatherResponse.weather :=
       [ {| WeatherResponse.description := "clear sky";
            WeatherResponse.icon := "01d" |} ];
     WeatherResponse.wind := {| WeatherResponse.speed := Number.of_Z 3 |};
     WeatherResponse.name := name;
     WeatherResponse.id := id |}.

(** A body with an empty [weather] array. *)
Definition empty_weather_response (name : string) (id : Z) : WeatherResponse.t :=
  {| WeatherResponse.main :=
       {| WeatherResponse.temp := Number.of_Z 20;
          WeatherResponse.feels_like := Number.of_Z 19;
          WeatherResponse.humidity := Number.of_Z 60 |};
     WeatherResponse.weather := [];
     WeatherResponse.wind := {| WeatherResponse.speed := Number.of_Z 3 |};
     WeatherResponse.name := name;
     WeatherResponse.id := id |}.

(** An API that settles the [k]-th request of the run as the [k]-th entry
    of [answers] says, and rejects every later one. *)
Definition scripted (answers : list AxiosOutcome) : Env :=
  {| API_KEY := "key";
     axios_get_outcome := fun k _ => nth k answers Rejected;
     Date_now := fun k => 1000 * Z.of_nat k |}.

(** The five default cities resolve, to five distinct ids; later requests
    are answered by [later]. *)
Definition default_answers : list AxiosOutcome :=
  [ Resolved (sample_response "London" 2643743 12);
    Resolved (sample_response "New York" 5128581 25);
    Resolved (sample_response "Tokyo" 1850144 18);
    Resolved (sample_response "Paris" 2988507 15);
    Resolved (sample_response "Sydney" 2147714 22) ].

Definition env_after_defaults (later : list AxiosOutcome) : Env :=
  scripted (default_answers ++ later)%list.

(** Only "Paris" of the default cities resolves, to Paris in France; the
    later request for "Paris" resolves to the Paris of Texas. *)
Definition env_two_paris : Env :=
  scripted
    [ Rejected; Rejected; Rejected;
      Resolved (sample_response "Paris" 2988507 15);
      Rejected;
      Resolved (sample_response "Paris" 4717560 30) ].

(** No default city resolves; two later queries resolve to the same city
    id under two spellings of its name. *)
Definition env_two_spellings : Env :=
  scripted
    [ Rejected; Rejected; Rejected; Rejected; Rejected;
      Resolved (sample_response "Muenchen" 2867714 9);
      Resolved (sample_response "Munich" 2867714 9) ].

Definition two_spellings_events : list Event :=
  [ TypeQuery "Muenchen"; SubmitSearch; TypeQuery "Munich"; SubmitSearch ].

(** Two default cities resolve to two places of the same name; a later
    query resolves to a third place of that name. *)
Definition env_same_name : Env :=
  scripted
    [ Resolved (sample_response "Springfield" 4409896 20);
      Resolved (sample_response "Springfield" 4250542 21);
      Rejected; Rejected; Rejected;
      Resolved (sample_response "Springfield" 4951788 19) ].

(** The scenario of the specification: of three cities the second one is
    unknown to the API. *)
Definition env_unknownville : Env :=
  scripted
    [ Resolved (sample_response "London" 2643743 12);
      Rejected;
      Resolved (sample_response "Tokyo" 1850144 18);
      Resolved (sample_response "London" 2643743 13) ].

(** The dashboard after mount, with [text] typed in the search box. *)
Definition typed (env : Env) (text : string) : World :=
  perform env (TypeQuery text) (mounted env).

(** After the default cities: a request that resolves to Tokyo again; one
    that resolves to Berlin; one that resolves to London again; one that
    is rejected; one whose body has no weather entry. *)
Definition env_tokyo_again : Env :=
  env_after_defaults [Resolved (sample_response "Tokyo" 1850144 31)].

Definition env_berlin : Env :=
  env_after_defaults [Resolved (sample_response "Berlin" 2950159 10)].

Definition env_london_again : Env :=
  env_after_defaults [Resolved (sample_response "London" 2643743 14)].

Definition env_rejecting : Env := env_after_defaults [Rejected].

Definition env_empty_weather : Env :=
  env_after_defaults [Resolved (empty_weather_response "Nowhere" 1)].

(** 36.6 degrees Celsius. *)
Definition body_temperature : Number.t :=
  Number.div (Number.of_Z 366) (Number.of_Z 10).

(** The integer nearest to the exact value of [x * 9 / 5 + 32], for a
    finite [x] of exact value [n / d]: that of [(9 * n + 160 * d) / (5 * d)],
    the larger one on a tie. *)
Definition exact_fahrenheit_rounded (x : Number.t) : Z :=
  Number.round_half_up
    (9 * Number.numerator x + 160 * Number.denominator x)
    (5 * Number.denominator x).

(** The binary64 number just below 2.5, which JavaScript prints as
    2.4999999999999996: [(5 * 2 ^ 50 - 1) / 2 ^ 51]. *)
Definition just_below_two_and_a_half : Number.t :=
  S754_finite false 5629499534213119 (-51).

(** The unit letter of a display. *)
Definition unit_letter (useCelsius : bool) : string :=
  if useCelsius then "C" else "F".

(** Tactic: a concrete list of ids has no repetition. *)
Ltac distinct_ids :=
  vm_compute;
  repeat (apply NoDup_cons;
          [ let H := fresh in
            intros H; repeat destruct H as [H|H]; try discriminate H; exact H
          | ]);
  apply NoDup_nil.

(** ** The rendered view (App.tsx lines 107-198)

    The JSX of [App], reduced to what depends on the state: the texts, the
    keys, the [disabled] flags and the branch between the spinner and the
    grid of cards.  Class names and icons are constant and are left out. *)

(** One card of the grid (App.tsx lines 152-192). *)
Record Card := {
  card_key : Z;
  card_city : string;
  card_description : string;
  card_refresh_target : Z;
  card_refresh_disabled : bool;
  card_refresh_spinning : bool;
  card_temperature : string;
  card_feels_like : string;
  card_wind : string;
  card_humidity : string;
  card_last_updated : string
}.

(** What stands below the form (App.tsx lines 145-195). *)
Inductive Body :=
| Spinner
| Grid (cards : list Card).

Record View := {
  toggle_label : string;
  input_value : string;
  submit_disabled : bool;
  error_paragraph : option string;
  body : Body
}.

Section Render.

(** [formatTime] (App.tsx lines 25-31) formats a date with the host's
    [Intl.DateTimeFormat], in the host's time zone; it is a parameter. *)
Variable formatTime : Date -> string.

Definition render_card (st : AppState) (weather : WeatherData.t) : Card :=
  {| card_key := WeatherData.id weather;
     card_city := WeatherData.city weather;
     card_description := WeatherData.description weather;
     card_refresh_target := WeatherData.id weather;
     card_refresh_disabled := retrying st;
     card_refresh_spinning := retrying st;
     card_temperature :=
       formatTemp (isCelsius st)
         (convertTemp (isCelsius st) (WeatherData.temperature weather));
     card_feels_like :=
       "Feels like " ++
       formatTemp (isCelsius st)
         (convertTemp (isCelsius st) (WeatherData.feelsLike weather));
     card_wind :=
       "Wind Speed: " ++ Number.toString (WeatherData.windSpeed weather) ++ " m/s";
     card_humidity :=
       "Humidity: " ++ Number.toString (WeatherData.humidity weather) ++ "%";
     card_last_updated :=
       "Last updated: " ++ formatTime (WeatherData.lastUpdated weather) |}.

Definition render (st : AppState) : View :=
  {| toggle_label := "Switch to " ++ (if isCelsius st then "°F" else "°C");
     input_value := searchCity st;
     submit_disabled := loading st;
     error_paragraph :=
       if JsString.truthy (error st) then Some (error st) else None;
     body :=
       if loading st then Spinner
       else Grid (map (render_card st) (weatherData st)) |}.

End Render.

(** The cards a view shows. *)
Definition cards_of (v : View) : list Card :=
  match body v with
  | Spinner => []
  | Grid cards => cards
  end.

(** [text] ends with [suffix]. *)
Definition ends_with (suffix text : string) : Prop :=
  exists front, text = front ++ suffix.

(** The city names of a collection, in order. *)
Definition cities_of (l : list WeatherData.t) : list string :=
  map WeatherData.city l.

(** Every record of the collection is what a request that was issued
    yielded. *)
Definition provenance (env : Env) (w : World) : Prop :=
  forall d, In d (collection w) ->
    exists k city,
      nth_error (requests w) k = Some (weather_url env city)
      /\ fetched env k city = Some d.

(** The number of submissions among events. *)
Definition submissions (evs : list Event) : nat :=
  List.length
    (filter (fun ev => match ev with SubmitSearch => true | _ => false end) evs).

(** The events run from any world. *)
Definition run_from (env : Env) (w : World) (evs : list Event) : World :=
  fold_left (fun w ev => perform env ev w) evs w.

(** A temperature given in tenths of a degree, and the texts an exact
    computation on rationals would show for it: [k / 10] rounded, and
    [k / 10 * 9 / 5 + 32 = (9 * k + 1600) / 50] rounded. *)
Definition tenths (k : Z) : Number.t :=
  Number.div (Number.of_Z k) (Number.of_Z 10).

Definition exact_display (k : Z) (useCelsius : bool) : string :=
  if useCelsius
  then Number.digits (Number.round_half_up k 10) ++ "°C"
  else Number.digits (Number.round_half_up (9 * k + 1600) 50) ++ "°F".

Definition display_is_exact (k : Z) : bool :=
  (displayTemp (tenths k) true =? exact_display k true)%string
  && (displayTemp (tenths k) false =? exact_display k false)%string.

(** The integers [lo], [lo + 1], ..., [lo + n - 1]. *)
Definition Z_range (lo : Z) (n : nat) : list Z :=
  map (fun i => lo + Z.of_nat i) (seq 0 n).

(** After the default cities, a request that resolves to another place
    called London, then one that resolves to the London of the default
    cities. *)
Definition env_evicting : Env :=
  env_after_defaults
    [ Resolved (sample_response "London" 999 13);
      Resolved (sample_response "London" 2643743 14) ].

(** A stale render: London (id 2643743) was on the dashboard when the
    handler was created; a search has since put the other London in its
    place. *)
Definition stale_snapshot : AppState := app (mounted env_evicting).

Definition evicted_world : World :=
  search env_evicting (typed env_evicting "London").

(** The requests a waiting handler awaits are in the log. *)
Definition pending_logged (env : Env) (w : World) (p : Pending) : Prop :=
  match p with
  | PendingLoad k cities =>
      forall i city,
        nth_error cities i = Some city ->
        nth_error (requests w) (k + i) = Some (weather_url env city)
  | PendingSearch k query =>
      nth_error (requests w) k = Some (weather_url env query)
  | PendingRefresh k _ city =>
      nth_error (requests w) k = Some (weather_url env city)
  end.

(** After the default cities, the refresh of London is answered with
    London, the later search with another place called London. *)
Definition env_late_answer : Env :=
  env_after_defaults
    [ Resolved (sample_response "London" 2643743 14);
      Resolved (sample_response "London" 999 13) ].

(** After the default cities, a request that resolves to Tokyo and one
    that resolves to Berlin; and a run in which the refresh of Tokyo and
    the search for Berlin both wait for their answers. *)
Definition env_overlap : Env :=
  env_after_defaults
    [ Resolved (sample_response "Tokyo" 1850144 31);
      Resolved (sample_response "Berlin" 2950159 10) ].

Definition overlap_actions : list Action :=
  [ Arrive 0; User (ClickRefresh 1850144);
    User (TypeQuery "Berlin"); User SubmitSearch ].

(** After the default cities, two requests that resolve to Berlin. *)
Definition env_two_visits : Env :=
  env_after_defaults
    [ Resolved (sample_response "Berlin" 2950159 10);
      Resolved (sample_response "Berlin" 2950159 11) ].

(** The record [fetchWeatherData] builds from [sample_response], when
    the answer is processed at the clock reading of request [k]. *)
Definition sample_record (name : string) (id : Z) (temp : Z) (k : nat)
  : WeatherData.t :=
  {| WeatherData.id := id;
     WeatherData.city := name;
     WeatherData.temperature := Number.of_Z temp;
     WeatherData.feelsLike := Number.of_Z (temp - 1);
     WeatherData.description := "clear sky";
     WeatherData.humidity := Number.of_Z 60;
     WeatherData.windSpeed := Number.of_Z 3;
     WeatherData.icon := "01d";
     WeatherData.lastUpdated := 1000 * Z.of_nat k |}.

(** After the default cities, two requests that resolve to Tokyo. *)
Definition env_tokyo_twice : Env :=
  env_after_defaults
    [ Resolved (sample_response "Tokyo" 1850144 31);
      Resolved (sample_response "Tokyo" 1850144 32) ].

(** * Properties *)

(** ** The monad *)

Lemma try_catch_normal {A} (body : M A) handler w a w' :
  body w = (Normal a, w') -> try_catch body handler w = (Normal a, w').
Proof. unfold try_catch. intros ->. reflexivity. Qed.

(** ** The built-ins on concrete inputs *)

Example trim_examples :
  JsString.trim "  New York  " = "New York"
  /\ JsString.trim (JsString.utf8 160 ++ "Paris" ++ JsString.utf8 8233) = "Paris"
  /\ JsString.trim (JsString.utf8 9 ++ JsString.utf8 12288 ++ " ") = ""
  /\ JsString.trim (JsString.utf8 233 ++ " ") = JsString.utf8 233.
Proof. repeat split. Qed.

Example Math_round_examples :
  Number.Math_round (Number.div (Number.of_Z 5) (Number.of_Z 2))
  = S754_finite false 3 0
  /\ Number.Math_round (Number.div (Number.of_Z (-5)) (Number.of_Z 2))
     = S754_finite true 2 0
  /\ Number.Math_round (Number.div (Number.of_Z (-1)) (Number.of_Z 2))
     = S754_zero true
  /\ Number.Math_round (Number.div (Number.of_Z 49) (Number.of_Z 100))
     = S754_zero false
  /\ Number.Math_round S754_nan = S754_nan
  /\ Number.Math_round (S754_infinity true) = S754_infinity true.
Proof. repeat split. Qed.

Example toString_examples :
  Number.toString (Number.of_Z 212) = "212"
  /\ Number.toString (Number.of_Z (-40)) = "-40"
  /\ Number.toString (S754_zero true) = "0"
  /\ Number.toString (Number.of_Z (2 ^ 53)) = "9007199254740992"
  /\ Number.toString (Number.of_Z (10 ^ 20)) = "100000000000000000000"
  /\ Number.toString (Number.of_Z (10 ^ 21)) = "1e+21"
  /\ Number.toString (Number.of_Z (2 ^ 70)) = "1.1805916207174113e+21"
  /\ Number.toString (Number.div (Number.of_Z 1) (Number.of_Z 10)) = "0.1"
  /\ Number.toString (Number.div (Number.of_Z 1) (Number.of_Z 3))
     = "0.3333333333333333"
  /\ Number.toString (Number.div (Number.of_Z 1) (Number.of_Z 10000000))
     = "1e-7"
  /\ Number.toString S754_nan = "NaN"
  /\ Number.toString (S754_infinity true) = "-Infinity".
Proof. repeat split; vm_compute; reflexivity. Qed.

(** ** Strings: the guard of [handleSearch] *)

Module JsStringFacts.
Import JsString.

Lemma code_eqb (a : ascii) (n : N) :
(N_of_ascii a =? n)%N = true -> a = ascii_of_N n.
Proof.
intros H. apply N.eqb_eq in H. rewrite <- H. symmetry. apply ascii_N_embedding.
Qed.

Lemma code_range (a : ascii) (lo hi : N) :
((lo <=? N_of_ascii a) && (N_of_ascii a <=? hi))%N = true ->
exists n, (lo <= n <= hi)%N /\ a = ascii_of_N n.
Proof.
intros H. apply andb_true_iff in H as [H1 H2].
apply N.leb_le in H1, H2. exists (N_of_ascii a). split; [lia|].
symmetry. apply ascii_N_embedding.
Qed.


Lemma ws1_sound a s : ws1 a = true -> whitespace_only s -> whitespace_only (String a s).
Proof.
unfold ws1. intros H Hs. apply orb_true_iff in H as [H|H].
- apply code_range in H as (n & Hn & ->).
  assert (n = 9 \/ n = 10 \/ n = 11 \/ n = 12 \/ n = 13)%N as Hc by lia.
  destruct Hc as [->|[->|[->|[->| ->]]]]; pick_ws; exact Hs.
- apply code_eqb in H as ->. pick_ws; exact Hs.
Qed.

Lemma ws2_sound a b s :
ws2 a b = true -> whitespace_only s -> whitespace_only (String a (String b s)).
Proof.
unfold ws2. intros H Hs. apply andb_true_iff in H as [Ha Hb].
apply code_eqb in Ha as ->. apply code_eqb in Hb as ->. pick_ws; exact Hs.
Qed.

Lemma ws3_sound a b c s :
ws3 a b c = true -> whitespace_only s ->
whitespace_only (String a (String b (String c s))).
Proof.
unfold ws3. intros H Hs.
repeat match type of H with
       | (_ || _) = true => apply orb_true_iff in H as [H|H]
       end;
repeat match type of H with
       | (_ && _) = true =>
           let H' := fresh "H" in apply andb_true_iff in H as [H H']
       end;
repeat match goal with
       | Hx : (_ || _) = true |- _ => apply orb_true_iff in Hx as [Hx|Hx]
       | Hx : (N_of_ascii _ =? _)%N = true |- _ => apply code_eqb in Hx; subst
       end.
all: try (pick_ws; exact Hs).
all: match goal with
     | Hx : (_ && _) = true |- _ => apply code_range in Hx as (n & Hn & ->)
     end.
all: assert (n = 128 \/ n = 129 \/ n = 130 \/ n = 131 \/ n = 132 \/ n = 133
             \/ n = 134 \/ n = 135 \/ n = 136 \/ n = 137 \/ n = 138)%N
       as Hc by lia.
all: repeat destruct Hc as [->|Hc]; try subst n; pick_ws; exact Hs.
Qed.


Lemma append_assoc (a b c : string) : (a ++ b) ++ c = a ++ (b ++ c).
Proof. induction a as [|x a IH]; simpl; [reflexivity | now rewrite IH]. Qed.

Lemma whitespace_only_app p q :
whitespace_only p -> whitespace_only q -> whitespace_only (p ++ q).
Proof.
intros Hp Hq. induction Hp as [|cp s Hcp Hs IH]; [exact Hq|].
rewrite append_assoc. apply ws_more; assumption.
Qed.

Lemma append_empty_r (s : string) : s ++ "" = s.
Proof. induction s as [|a s IH]; simpl; [reflexivity | now rewrite IH]. Qed.

Lemma trimStart_whitespace_only s : whitespace_only s -> trimStart s = "".
Proof.
intros H. induction H as [|cp s Hcp Hs IH]; [reflexivity|].
simpl in Hcp.
repeat destruct Hcp as [<-|Hcp]; try contradiction; exact IH.
Qed.

Lemma trimStart_prefix_bounded (n : nat) :
forall s, (String.length s <= n)%nat ->
exists p, whitespace_only p /\ s = p ++ trimStart s.
Proof.
induction n as [|n IH]; intros s Hlen.
- destruct s; [|simpl in Hlen; lia]. exists "". split; [constructor|reflexivity].
- destruct s as [|a r1]; [exists ""; split; [constructor|reflexivity]|].
  simpl in Hlen. cbn [trimStart].
  destruct (ws1 a) eqn:E1.
  { destruct (IH r1 ltac:(lia)) as (p & Hp & Heq).
    exists (String a p). split; [now apply ws1_sound|].
    simpl. now rewrite <- Heq. }
  destruct r1 as [|b r2]; [exists ""; split; [constructor|reflexivity]|].
  simpl in Hlen.
  destruct (ws2 a b) eqn:E2.
  { destruct (IH r2 ltac:(lia)) as (p & Hp & Heq).
    exists (String a (String b p)). split; [now apply ws2_sound|].
    simpl. now rewrite <- Heq. }
  destruct r2 as [|c r3]; [exists ""; split; [constructor|reflexivity]|].
  simpl in Hlen.
  destruct (ws3 a b c) eqn:E3.
  { destruct (IH r3 ltac:(lia)) as (p & Hp & Heq).
    exists (String a (String b (String c p))). split; [now apply ws3_sound|].
    simpl. now rewrite <- Heq. }
  exists "". split; [constructor|reflexivity].
Qed.

Lemma trimStart_prefix s :
exists p, whitespace_only p /\ s = p ++ trimStart s.
Proof. apply (trimStart_prefix_bounded (String.length s)). lia. Qed.

Lemma trimEnd_empty s : trimEnd s = "" -> trimStart s = "".
Proof.
destruct s as [|a r]; [reflexivity|].
cbn [trimEnd]. destruct (trimStart (String a r)); [reflexivity|discriminate].
Qed.

(** The guard of [handleSearch] holds exactly for the whitespace-only
  queries. *)
Lemma trim_blank s : truthy (trim s) = false <-> whitespace_only s.
Proof.
unfold trim. split.
- intros H.
  assert (trimEnd (trimStart s) = "") as E
    by (destruct (trimEnd (trimStart s)); [reflexivity|discriminate]).
  apply trimEnd_empty in E.
  destruct (trimStart_prefix s) as (p & Hp & Hs).
  destruct (trimStart_prefix (trimStart s)) as (q & Hq & Ht).
  rewrite E, append_empty_r in Ht. rewrite Hs, Ht.
  now apply whitespace_only_app.
- intros H. now rewrite (trimStart_whitespace_only s H).
Qed.

End JsStringFacts.

(** ** Numbers: rounding and printing *)

Lemma round_half_up_nearest n d :
  0 < d -> 2 * Z.abs (Number.round_half_up n d * d - n) <= d.
Proof.
  intros Hd. unfold Number.round_half_up.
  pose proof (Z.div_mod (2 * n + d) (2 * d) ltac:(lia)) as E.
  pose proof (Z.mod_pos_bound (2 * n + d) (2 * d) ltac:(lia)) as B.
  set (q := (2 * n + d) / (2 * d)) in *.
  set (r := (2 * n + d) mod (2 * d)) in *.
  assert (2 * (q * d - n) = d - r) by lia. lia.
Qed.

Lemma round_half_up_integer n : Number.round_half_up n 1 = n.
Proof.
  unfold Number.round_half_up. replace (2 * n + 1) with (1 + n * 2) by lia.
  change (2 * 1) with 2.
  rewrite Z.div_add by lia. reflexivity.
Qed.

Lemma digits_neg p : Number.digits (Z.neg p) = "-" ++ Number.digits (Z.pos p).
Proof. reflexivity. Qed.

Lemma toString_integer s p :
  Z.pos p < 2 ^ 53 ->
  Number.toString (S754_finite s p 0) = Number.digits (Number.signed s p).
Proof.
  intros H. unfold Number.toString, Number.toString_pos, Number.integral.
  cbn [Z.leb Z.compare]. change (2 ^ 0) with 1. rewrite Z.mul_1_r.
  apply Z.ltb_lt in H. rewrite H. destruct s; reflexivity.
Qed.

Lemma Math_round_toString (x : Number.t) s m e :
  x = S754_finite s m e ->
  Z.abs (Number.nearest_integer x) < 2 ^ 53 ->
  Number.toString (Number.Math_round x) = Number.digits (Number.nearest_integer x).
Proof.
  intros -> H. unfold Number.nearest_integer, Number.numerator, Number.denominator in *.
  unfold Number.Math_round.
  destruct (Z.leb_spec 0 e) as [He|He].
  - rewrite Z.max_l in * by lia. rewrite Z.max_r in * by lia.
    change (2 ^ 0) with 1 in *. rewrite round_half_up_integer in *.
    unfold Number.toString, Number.toString_pos, Number.integral.
    apply Z.leb_le in He as He'. rewrite He'.
    assert (0 < 2 ^ e) by (apply Z.pow_pos_nonneg; lia).
    destruct s; cbn [Number.signed] in *.
    + assert (Z.pos m * 2 ^ e < 2 ^ 53) as Hlt by lia.
      apply Z.ltb_lt in Hlt. rewrite Hlt.
      destruct (Z.pos m * 2 ^ e) as [|q|q] eqn:Eq; try lia.
      replace (Z.neg m * 2 ^ e) with (Z.neg q) by lia. reflexivity.
    + assert (Z.pos m * 2 ^ e < 2 ^ 53) as Hlt by lia.
      apply Z.ltb_lt in Hlt. rewrite Hlt. reflexivity.
  - rewrite Z.max_r in * by lia. rewrite Z.max_l in * by lia.
    change (2 ^ 0) with 1 in *. rewrite Z.mul_1_r in *.
    destruct (Number.round_half_up (Number.signed s m) (2 ^ (- e))) as [|p|p] eqn:Er.
    + reflexivity.
    + apply (toString_integer false). lia.
    + apply (toString_integer true). lia.
Qed.

(** ** The handlers, run to completion *)

Lemma pred_length_snoc {A} (l : list A) (x : A) :
  Nat.pred (List.length (l ++ [x])%list) = List.length l.
Proof. rewrite length_app. simpl. rewrite Nat.add_1_r. reflexivity. Qed.

(** One call of [fetchWeatherData] issues exactly one request and returns
    what [fetched] describes. *)
Lemma fetchWeatherData_spec (env : Env) (city : string) (w : World) :
  fetchWeatherData env city w =
  (Normal (fetched env (List.length (requests w)) city),
   requested w (weather_url env city)).
Proof.
  unfold fetchWeatherData, try_catch, bind, axios_get, fetched, requested.
  destruct (axios_get_outcome env _ _) as [|data]; [reflexivity|].
  destruct (WeatherResponse.weather data) as [|entry rest]; simpl;
    [reflexivity|].
  unfold new_Date, ret; simpl. rewrite pred_length_snoc. reflexivity.
Qed.

Section HandlerFacts.
Variable env : Env.

Lemma lookup_absent cityId l :
  ~ In cityId (ids l) -> lookup cityId l = None.
Proof.
  unfold lookup, ids. induction l as [|d l IH]; simpl; intros H; [reflexivity|].
  destruct (Z.eqb_spec (WeatherData.id d) cityId) as [E|E].
  - exfalso. apply H. now left.
  - apply IH. intros Hin. apply H. now right.
Qed.

Lemma lookup_present cityId l c :
  lookup cityId l = Some c -> In c l /\ WeatherData.id c = cityId.
Proof.
  unfold lookup. intros H. apply find_some in H as [Hin E].
  split; [exact Hin|]. now apply Z.eqb_eq.
Qed.

Lemma present_lookup cityId l :
  In cityId (ids l) -> exists c, lookup cityId l = Some c.
Proof.
  intros H. destruct (lookup cityId l) as [c|] eqn:E; [now exists c|].
  exfalso. unfold ids in H. apply in_map_iff in H as (d & Hd & Hin).
  unfold lookup in E. apply (find_none _ _ E) in Hin.
  apply Z.eqb_neq in Hin. contradiction.
Qed.

Lemma refreshWeather_absent w cityId :
  lookup cityId (collection w) = None ->
  refreshWeather env (app w) cityId w = (Normal tt, w).
Proof.
  unfold refreshWeather, lookup, collection. intros ->. reflexivity.
Qed.

Lemma refreshWeather_present w cityId c :
  lookup cityId (collection w) = Some c ->
  refreshWeather env (app w) cityId w =
  (Normal tt,
   {| app :=
        {| weatherData :=
             match fetched env (List.length (requests w)) (WeatherData.city c) with
             | Some updated => refreshed cityId updated (collection w)
             | None => collection w
             end;
           loading := loading (app w);
           searchCity := searchCity (app w);
           error := error (app w);
           isCelsius := isCelsius (app w);
           retrying := false |};
      requests := (requests w ++ [weather_url env (WeatherData.city c)])%list |}).
Proof.
  unfold refreshWeather, lookup, collection. intros ->.
  unfold bind at 1. unfold setRetrying at 1, update at 1.
  unfold bind at 1. rewrite fetchWeatherData_spec. cbn [requests app requested].
  destruct (fetched env _ _) as [updated|]; reflexivity.
Qed.

Lemma handleSearch_try_run snapshot w :
  handleSearch_try env snapshot w =
  (Normal tt,
   {| app :=
        match fetched env (List.length (requests w)) (searchCity snapshot) with
        | Some new =>
            {| weatherData :=
                 new :: filter (fun item =>
                          negb (WeatherData.city item =? WeatherData.city new)%string)
                        (collection w);
               loading := loading (app w);
               searchCity := "";
               error := error (app w);
               isCelsius := isCelsius (app w);
               retrying := retrying (app w) |}
        | None =>
            {| weatherData := collection w;
               loading := loading (app w);
               searchCity := searchCity (app w);
               error := "City not found. Please try again.";
               isCelsius := isCelsius (app w);
               retrying := retrying (app w) |}
        end;
      requests := (requests w ++ [weather_url env (searchCity snapshot)])%list |}).
Proof.
  unfold handleSearch_try. unfold bind at 1. rewrite fetchWeatherData_spec.
  destruct (fetched env _ _) as [new|]; reflexivity.
Qed.

Lemma handleSearch_blank snapshot w :
  JsString.truthy (JsString.trim (searchCity snapshot)) = false ->
  handleSearch env snapshot w = (Normal tt, w).
Proof. unfold handleSearch. intros ->. reflexivity. Qed.

Lemma handleSearch_run w :
  JsString.truthy (JsString.trim (searchCity (app w))) = true ->
  handleSearch env (app w) w =
  (Normal tt,
   {| app :=
        match fetched env (List.length (requests w)) (searchCity (app w)) with
        | Some new =>
            {| weatherData :=
                 new :: filter (fun item =>
                          negb (WeatherData.city item =? WeatherData.city new)%string)
                        (collection w);
               loading := false;
               searchCity := "";
               error := "";
               isCelsius := isCelsius (app w);
               retrying := retrying (app w) |}
        | None =>
            {| weatherData := collection w;
               loading := false;
               searchCity := searchCity (app w);
               error := "City not found. Please try again.";
               isCelsius := isCelsius (app w);
               retrying := retrying (app w) |}
        end;
      requests := (requests w ++ [weather_url env (searchCity (app w))])%list |}).
Proof.
  unfold handleSearch. intros ->. cbn [negb].
  unfold bind at 1, setLoading at 1, update at 1.
  unfold bind at 1, setError at 1, update at 1.
  unfold bind at 1, try_catch. rewrite handleSearch_try_run.
  cbn [requests app collection weatherData loading searchCity error isCelsius retrying].
  destruct (fetched env _ _) as [new|]; reflexivity.
Qed.

Lemma mapM_fetch cities : forall w,
  exists results,
    mapM (fetchWeatherData env) cities w =
    (Normal results,
     {| app := app w;
        requests := (requests w ++ map (weather_url env) cities)%list |})
    /\ non_null results = successes env (List.length (requests w)) cities.
Proof.
  induction cities as [|c cs IH]; intros w.
  - exists []. split; [|reflexivity]. unfold mapM, ret.
    rewrite app_nil_r. destruct w; reflexivity.
  - destruct (IH (requested w (weather_url env c))) as (rs & Hrun & Hflat).
    exists (fetched env (List.length (requests w)) c :: rs).
    split.
    + cbn [mapM]. unfold bind at 1. rewrite fetchWeatherData_spec.
      unfold bind at 1. rewrite Hrun. unfold ret.
      cbn [requested app requests map]. rewrite <- app_assoc. reflexivity.
    + unfold non_null in *. cbn [flat_map successes]. rewrite Hflat.
      cbn [requested requests]. rewrite length_app, Nat.add_1_r.
      destruct (fetched env _ c); reflexivity.
Qed.

Lemma loadInitialDataFor_run cities w :
  loadInitialDataFor env cities w =
  (Normal tt,
   {| app :=
        {| weatherData := successes env (List.length (requests w)) cities;
           loading := false;
           searchCity := searchCity (app w);
           error := error (app w);
           isCelsius := isCelsius (app w);
           retrying := retrying (app w) |};
      requests := (requests w ++ map (weather_url env) cities)%list |}).
Proof.
  unfold loadInitialDataFor.
  destruct (mapM_fetch cities w) as (rs & Hrun & Hflat).
  unfold bind at 1. rewrite Hrun.
  unfold bind, setWeatherData, setLoading, update.
  cbn [app requests weatherData loading searchCity error isCelsius retrying].
  rewrite Hflat. reflexivity.
Qed.

Lemma successes_failures cities : forall k,
  (List.length (successes env k cities) + failures env k cities
   = List.length cities)%nat.
Proof.
  induction cities as [|c cs IH]; intros k; [reflexivity|].
  cbn [successes failures]. specialize (IH (S k)).
  destruct (fetched env k c); cbn [List.length]; lia.
Qed.
End HandlerFacts.

(** ** Lists of records *)

Lemma refreshed_length cityId updated l :
  List.length (refreshed cityId updated l) = List.length l.
Proof. unfold refreshed. apply length_map. Qed.

Lemma refreshed_nth cityId updated l i d :
  nth_error l i = Some d ->
  nth_error (refreshed cityId updated l) i =
  Some (if WeatherData.id d =? cityId then updated else d).
Proof.
  unfold refreshed. intros H. rewrite nth_error_map, H. reflexivity.
Qed.

Lemma refreshed_other cityId updated l :
  ~ In cityId (ids l) -> refreshed cityId updated l = l.
Proof.
  unfold refreshed, ids. induction l as [|d l IH]; intros H; [reflexivity|].
  cbn [map] in *. destruct (Z.eqb_spec (WeatherData.id d) cityId) as [E|E].
  - exfalso. apply H. now left.
  - f_equal. apply IH. intros Hin. apply H. now right.
Qed.

Lemma refreshed_same_id cityId updated l :
  WeatherData.id updated = cityId ->
  ids (refreshed cityId updated l) = ids l.
Proof.
  unfold refreshed, ids. intros Hid. rewrite map_map. apply map_ext.
  intros d. destruct (Z.eqb_spec (WeatherData.id d) cityId); congruence.
Qed.

Lemma refreshed_split cityId updated l c :
  NoDup (ids l) -> lookup cityId l = Some c ->
  exists l1 l2,
    l = (l1 ++ c :: l2)%list /\
    refreshed cityId updated l = (l1 ++ updated :: l2)%list.
Proof.
  intros Hnd Hc. apply lookup_present in Hc as [Hin Hid].
  apply in_split in Hin as (l1 & l2 & ->). exists l1, l2. split; [reflexivity|].
  unfold ids in Hnd. rewrite map_app in Hnd. cbn [map] in Hnd.
  apply NoDup_remove_2 in Hnd. rewrite Hid in Hnd.
  unfold refreshed. rewrite map_app. cbn [map].
  rewrite Hid, Z.eqb_refl.
  fold (refreshed cityId updated l1). fold (refreshed cityId updated l2).
  rewrite !refreshed_other; [reflexivity| |];
    intros Hin; apply Hnd, in_or_app; [right|left]; exact Hin.
Qed.

Lemma refreshed_fresh_id cityId updated l :
  NoDup (ids l) -> ~ In (WeatherData.id updated) (ids l) ->
  NoDup (ids (refreshed cityId updated l)).
Proof.
  induction l as [|d l IH]; intros Hnd Hfresh; [constructor|].
  unfold ids in Hnd, Hfresh. cbn [map] in Hnd, Hfresh.
  apply NoDup_cons_iff in Hnd as [Hd Hnd].
  unfold refreshed, ids. cbn [map].
  fold (refreshed cityId updated l). fold (ids (refreshed cityId updated l)).
  destruct (Z.eqb_spec (WeatherData.id d) cityId) as [E|E].
  - rewrite refreshed_other by (rewrite <- E; exact Hd).
    constructor; [|exact Hnd]. intros Hin. apply Hfresh. now right.
  - constructor.
    + intros Hin. unfold ids, refreshed in Hin. rewrite map_map in Hin.
      apply in_map_iff in Hin as (x & Hx & Hin).
      destruct (WeatherData.id x =? cityId).
      * apply Hfresh. left. now symmetry.
      * apply Hd. rewrite <- Hx. now apply in_map.
    + apply IH; [exact Hnd|]. intros Hin. apply Hfresh. now right.
Qed.

Lemma ids_filter_NoDup (f : WeatherData.t -> bool) l :
  NoDup (ids l) -> NoDup (ids (filter f l)).
Proof.
  unfold ids. induction l as [|d l IH]; intros Hnd; [constructor|].
  cbn [map] in Hnd. apply NoDup_cons_iff in Hnd as [Hd Hnd].
  cbn [filter]. destruct (f d); [|now apply IH].
  cbn [map]. constructor; [|now apply IH].
  intros Hin. apply Hd. apply in_map_iff in Hin as (x & Hx & Hin).
  apply filter_In in Hin as [Hin _]. rewrite <- Hx. now apply in_map.
Qed.

Lemma filter_length_occurrences name l :
  (List.length
     (filter (fun item => negb (WeatherData.city item =? name)%string) l)
   + occurrences name l = List.length l)%nat.
Proof.
  unfold occurrences. induction l as [|d l IH]; [reflexivity|].
  cbn [filter]. destruct (WeatherData.city d =? name)%string;
    cbn [negb List.length]; lia.
Qed.

Lemma successes_by_index env cities : forall k,
  successes env k cities =
  flat_map (fun i => match fetched env (k + i) (nth i cities "") with
                     | Some d => [d]
                     | None => []
                     end)
           (seq 0 (List.length cities)).
Proof.
  induction cities as [|c cs IH]; intros k; [reflexivity|].
  cbn [successes List.length seq flat_map nth]. rewrite Nat.add_0_r.
  rewrite <- seq_shift, flat_map_concat_map, map_map, <- flat_map_concat_map.
  rewrite IH.
  assert (forall l, flat_map (fun i => match fetched env (S k + i) (nth i cs "") with
                     | Some d => [d]
                     | None => []
                     end) l = flat_map (fun x => match fetched env (k + S x) (nth (S x) (c :: cs) "") with
                     | Some d => [d] | None => [] end) l) as E.
  { intros l. apply flat_map_ext. intros i. cbn [nth].
    now rewrite Nat.add_succ_r. }
  rewrite E. destruct (fetched env k c); reflexivity.
Qed.

(** ** Handlers that overlap *)

Lemma remove_nth_split {A} (l1 : list A) (a : A) (l2 : list A) :
  remove_nth (List.length l1) (l1 ++ a :: l2) = (l1 ++ l2)%list.
Proof.
  unfold remove_nth.
  rewrite firstn_app, Nat.sub_diag, firstn_all. cbn [firstn].
  rewrite app_nil_r.
  replace (S (List.length l1)) with (List.length (l1 ++ [a])%list)
    by (rewrite length_app; cbn; lia).
  replace (l1 ++ a :: l2)%list with ((l1 ++ [a]) ++ l2)%list
    by (now rewrite <- app_assoc).
  rewrite skipn_app, Nat.sub_diag, skipn_all. reflexivity.
Qed.

(** The steps of [act], read backwards. *)
Lemma act_cases env a w ps w' ps' :
  act env a (w, ps) = Some (w', ps') ->
  (exists text, a = User (TypeQuery text)
                /\ w' = perform env (TypeQuery text) w /\ ps' = ps)
  \/ (a = User ToggleUnit /\ w' = perform env ToggleUnit w /\ ps' = ps)
  \/ (exists new, a = User SubmitSearch /\ loading (app w) = false
                  /\ begin_search env w = (w', new) /\ ps' = (new ++ ps)%list)
  \/ (exists cityId new,
        a = User (ClickRefresh cityId)
        /\ loading (app w) = false /\ retrying (app w) = false
        /\ begin_refresh env cityId w = (w', new) /\ ps' = (new ++ ps)%list)
  \/ (exists ps1 p ps2,
        a = Arrive (List.length ps1)
        /\ ps = (ps1 ++ p :: ps2)%list
        /\ w' = settle env p w /\ ps' = (ps1 ++ ps2)%list).
Proof.
  destruct a as [[text| |cityId|]|n]; cbn [act].
  - intros H. injection H as <- <-. left. now exists text.
  - destruct (loading (app w)) eqn:Hl; [discriminate|].
    destruct (begin_search env w) as [w1 new] eqn:E.
    intros H. injection H as <- <-. right. right. left. now exists new.
  - destruct (loading (app w)) eqn:Hl; [discriminate|].
    destruct (retrying (app w)) eqn:Hr; [discriminate|]. cbn [orb].
    destruct (begin_refresh env cityId w) as [w1 new] eqn:E.
    intros H. injection H as <- <-. right. right. right. left.
    now exists cityId, new.
  - intros H. injection H as <- <-. right. left. repeat split.
  - destruct (nth_error ps n) as [p|] eqn:E; [|discriminate].
    intros H. injection H as <- <-.
    apply nth_error_split in E as (ps1 & ps2 & -> & <-).
    right. right. right. right. exists ps1, p, ps2.
    rewrite remove_nth_split. repeat split.
Qed.

Lemma play_app env actions1 actions2 d :
  play env (actions1 ++ actions2) d
  = match play env actions1 d with
    | Some d' => play env actions2 d'
    | None => None
    end.
Proof.
  revert d. induction actions1 as [|a rest IH]; intros d; [reflexivity|].
  cbn [play List.app]. destruct (act env a d); [apply IH | reflexivity].
Qed.

Lemma running_mounting env :
  running env (fst (mounting env)) (snd (mounting env)).
Proof. exists []. reflexivity. Qed.

Lemma running_act env a w ps w' ps' :
  running env w ps -> act env a (w, ps) = Some (w', ps') -> running env w' ps'.
Proof.
  intros [actions H] Ha. exists (actions ++ [a])%list.
  rewrite play_app, H. cbn [play]. now rewrite Ha.
Qed.

(** Induction over the runs. *)
Lemma running_ind (env : Env) (P : World -> list Pending -> Prop) :
  P (fst (mounting env)) (snd (mounting env)) ->
  (forall a w ps w' ps',
      running env w ps -> P w ps ->
      act env a (w, ps) = Some (w', ps') -> P w' ps') ->
  forall w ps, running env w ps -> P w ps.
Proof.
  intros Hbase Hstep w ps [actions H]. revert w ps H.
  induction actions as [|a actions IH] using rev_ind; intros w ps H.
  - cbn [play] in H.
    assert (mounting env = (w, ps)) as E by congruence.
    rewrite E in Hbase. exact Hbase.
  - rewrite play_app in H.
    destruct (play env actions (mounting env)) as [[w0 ps0]|] eqn:E;
      [|discriminate].
    cbn [play] in H. destruct (act env a (w0, ps0)) as [[w1 ps1]|] eqn:Ea;
      [|discriminate].
    injection H as <- <-.
    apply (Hstep a w0 ps0 w1 ps1); [now exists actions | now apply IH | exact Ea].
Qed.

(** *** What the two parts of a handler do to the world *)

Lemma begin_search_cases env w w' new :
  begin_search env w = (w', new) ->
  (w' = w /\ new = [] /\ JsString.whitespace_only (searchCity (app w)))
  \/ (new = [PendingSearch (List.length (requests w)) (searchCity (app w))]
      /\ ~ JsString.whitespace_only (searchCity (app w))
      /\ requests w'
         = (requests w ++ [weather_url env (searchCity (app w))])%list
      /\ collection w' = collection w
      /\ loading (app w') = true
      /\ retrying (app w') = retrying (app w)
      /\ isCelsius (app w') = isCelsius (app w)
      /\ searchCity (app w') = searchCity (app w)
      /\ error (app w') = "").
Proof.
  unfold begin_search.
  destruct (JsString.truthy (JsString.trim (searchCity (app w)))) eqn:Ht;
    cbn [negb]; intros H; injection H as <- <-.
  - right. split; [reflexivity|]. split.
    + intros Hb. apply JsStringFacts.trim_blank in Hb. congruence.
    + repeat split.
  - left. repeat split. now apply JsStringFacts.trim_blank.
Qed.

Lemma begin_refresh_cases env cityId w w' new :
  begin_refresh env cityId w = (w', new) ->
  (w' = w /\ new = [] /\ lookup cityId (collection w) = None)
  \/ exists c,
       lookup cityId (collection w) = Some c
       /\ new = [PendingRefresh (List.length (requests w)) cityId
                   (WeatherData.city c)]
       /\ requests w'
          = (requests w ++ [weather_url env (WeatherData.city c)])%list
       /\ collection w' = collection w
       /\ loading (app w') = loading (app w)
       /\ retrying (app w') = true
       /\ isCelsius (app w') = isCelsius (app w)
       /\ searchCity (app w') = searchCity (app w)
       /\ error (app w') = error (app w).
Proof.
  unfold begin_refresh, lookup, collection.
  destruct (find _ (weatherData (app w))) as [c|] eqn:E;
    intros H; injection H as <- <-.
  - right. exists c. repeat split.
  - left. repeat split.
Qed.

Lemma settle_load env k cities w :
  collection (settle env (PendingLoad k cities) w) = successes env k cities
  /\ requests (settle env (PendingLoad k cities) w) = requests w
  /\ loading (app (settle env (PendingLoad k cities) w)) = false
  /\ retrying (app (settle env (PendingLoad k cities) w)) = retrying (app w)
  /\ isCelsius (app (settle env (PendingLoad k cities) w)) = isCelsius (app w)
  /\ searchCity (app (settle env (PendingLoad k cities) w)) = searchCity (app w)
  /\ error (app (settle env (PendingLoad k cities) w)) = error (app w).
Proof. repeat split. Qed.

Lemma settle_search env k query w :
  requests (settle env (PendingSearch k query) w) = requests w
  /\ loading (app (settle env (PendingSearch k query) w)) = false
  /\ retrying (app (settle env (PendingSearch k query) w)) = retrying (app w)
  /\ isCelsius (app (settle env (PendingSearch k query) w)) = isCelsius (app w)
  /\ (fetched env k query = None
      /\ collection (settle env (PendingSearch k query) w) = collection w
      /\ searchCity (app (settle env (PendingSearch k query) w))
         = searchCity (app w)
      /\ error (app (settle env (PendingSearch k query) w))
         = "City not found. Please try again."
      \/ exists new,
           fetched env k query = Some new
           /\ collection (settle env (PendingSearch k query) w)
              = new :: filter (fun item =>
                         negb (WeatherData.city item
                               =? WeatherData.city new)%string)
                       (collection w)
           /\ searchCity (app (settle env (PendingSearch k query) w)) = ""
           /\ error (app (settle env (PendingSearch k query) w))
              = error (app w)).
Proof.
  cbn [settle]. destruct (fetched env k query) as [new|].
  - repeat split. right. exists new. repeat split.
  - repeat split. left. repeat split.
Qed.

Lemma settle_refresh env k cityId city w :
  requests (settle env (PendingRefresh k cityId city) w) = requests w
  /\ loading (app (settle env (PendingRefresh k cityId city) w))
     = loading (app w)
  /\ retrying (app (settle env (PendingRefresh k cityId city) w)) = false
  /\ isCelsius (app (settle env (PendingRefresh k cityId city) w))
     = isCelsius (app w)
  /\ searchCity (app (settle env (PendingRefresh k cityId city) w))
     = searchCity (app w)
  /\ error (app (settle env (PendingRefresh k cityId city) w)) = error (app w)
  /\ (fetched env k city = None
      /\ collection (settle env (PendingRefresh k cityId city) w)
         = collection w
      \/ exists updated,
           fetched env k city = Some updated
           /\ collection (settle env (PendingRefresh k cityId city) w)
              = refreshed cityId updated (collection w)).
Proof.
  cbn [settle]. destruct (fetched env k city) as [updated|].
  - repeat split. right. exists updated. repeat split.
  - repeat split. left. repeat split.
Qed.

(** *** The two parts of a handler, run one after the other, are the
    handler *)

Lemma settle_begin_load env cities w :
  settle env (PendingLoad (List.length (requests w)) cities)
    (fst (begin_load env cities w))
  = initialize env cities w.
Proof. unfold initialize. rewrite loadInitialDataFor_run. reflexivity. Qed.

Lemma settle_begin_search env w w' new :
  begin_search env w = (w', new) ->
  fold_right (settle env) w' new = search env w.
Proof.
  unfold begin_search, search.
  destruct (JsString.truthy (JsString.trim (searchCity (app w)))) eqn:Ht;
    cbn [negb]; intros H; injection H as <- <-.
  - rewrite (handleSearch_run env w Ht). cbn [fold_right settle].
    destruct (fetched env _ _); reflexivity.
  - now rewrite (handleSearch_blank env (app w) w Ht).
Qed.

Lemma settle_begin_refresh env cityId w w' new :
  begin_refresh env cityId w = (w', new) ->
  fold_right (settle env) w' new = refresh env cityId w.
Proof.
  unfold begin_refresh, refresh.
  destruct (find _ (weatherData (app w))) as [c|] eqn:E;
    intros H; injection H as <- <-.
  - rewrite (refreshWeather_present env w cityId c E). cbn [fold_right settle].
    destruct (fetched env _ _); reflexivity.
  - now rewrite (refreshWeather_absent env w cityId E).
Qed.

(** *** The flags and the waiting handlers *)

Lemma foreground_app ps1 ps2 :
  foreground (ps1 ++ ps2) = (foreground ps1 + foreground ps2)%nat.
Proof. unfold foreground. now rewrite filter_app, length_app. Qed.

Lemma background_app ps1 ps2 :
  background (ps1 ++ ps2) = (background ps1 + background ps2)%nat.
Proof. unfold background. now rewrite filter_app, length_app. Qed.

Lemma foreground_cons p ps :
  foreground (p :: ps)
  = ((if in_foreground p then 1 else 0) + foreground ps)%nat.
Proof. unfold foreground. cbn [filter]. now destruct (in_foreground p). Qed.

Lemma background_cons p ps :
  background (p :: ps)
  = ((if in_foreground p then 0 else 1) + background ps)%nat.
Proof. unfold background. cbn [filter]. now destruct (in_foreground p). Qed.

Lemma positive_count (n : nat) : (n <= 1)%nat -> (0 <? n)%nat = false -> n = 0%nat.
Proof. intros _ H. apply Nat.ltb_ge in H. lia. Qed.

Lemma running_flags env w ps :
  running env w ps ->
  (foreground ps <= 1)%nat
  /\ (background ps <= 1)%nat
  /\ loading (app w) = (0 <? foreground ps)%nat
  /\ retrying (app w) = (0 <? background ps)%nat.
Proof.
  apply (running_ind env (fun w ps =>
    (foreground ps <= 1)%nat /\ (background ps <= 1)%nat
    /\ loading (app w) = (0 <? foreground ps)%nat
    /\ retrying (app w) = (0 <? background ps)%nat)).
  - cbn. repeat split; lia.
  - clear w ps. intros a w ps w' ps' _ (Hf & Hb & Hl & Hr) Ha.
    apply act_cases in Ha
      as [(text & _ & -> & ->)
         |[(_ & -> & ->)
         |[(new & _ & Hl0 & Hbegin & ->)
         |[(cityId & new & _ & Hl0 & Hr0 & Hbegin & ->)
         |(ps1 & p & ps2 & _ & -> & -> & ->)]]]].
    + repeat split; assumption.
    + repeat split; assumption.
    + rewrite Hl0 in Hl. symmetry in Hl. apply (positive_count _ Hf) in Hl.
      apply begin_search_cases in Hbegin
        as [(-> & -> & _)|(-> & _ & _ & _ & Hl' & Hr' & _)].
      * cbn [List.app]. rewrite Hl, Hl0. repeat split; try assumption. lia.
      * cbn [List.app]. rewrite foreground_cons, background_cons, Hl, Hl', Hr'.
        cbn [in_foreground]. repeat split; try assumption; lia.
    + rewrite Hr0 in Hr. symmetry in Hr. apply (positive_count _ Hb) in Hr.
      apply begin_refresh_cases in Hbegin
        as [(-> & -> & _)|(c & _ & -> & _ & _ & Hl' & Hr' & _)].
      * cbn [List.app]. rewrite Hr, Hr0. repeat split; try assumption. lia.
      * cbn [List.app]. rewrite foreground_cons, background_cons, Hr, Hl', Hr'.
        cbn [in_foreground]. repeat split; try assumption; lia.
    + rewrite foreground_app, foreground_cons in Hf, Hl.
      rewrite background_app, background_cons in Hb, Hr.
      rewrite foreground_app, background_app.
      destruct p as [k cities|k query|k cityId city]; cbn [in_foreground] in *.
      * destruct (settle_load env k cities w) as (_ & _ & Hl' & Hr' & _).
        rewrite Hl', Hr', Hr.
        assert (foreground ps1 + foreground ps2 = 0)%nat as E by lia.
        rewrite E. repeat split; lia.
      * destruct (settle_search env k query w) as (_ & Hl' & Hr' & _).
        rewrite Hl', Hr', Hr.
        assert (foreground ps1 + foreground ps2 = 0)%nat as E by lia.
        rewrite E. repeat split; lia.
      * destruct (settle_refresh env k cityId city w) as (_ & Hl' & Hr' & _).
        rewrite Hl', Hr', Hl.
        assert (background ps1 + background ps2 = 0)%nat as E by lia.
        rewrite E. repeat split; lia.
Qed.

(** *** Runs without overlap are runs *)

Lemma running_mounted env : running env (mounted env) [].
Proof.
  apply (running_act env (Arrive 0) (fst (mounting env)) (snd (mounting env)));
    [apply running_mounting|].
  unfold mounted.
  rewrite <- (settle_begin_load env DEFAULT_CITIES initial_world). reflexivity.
Qed.

Lemma running_perform env ev w :
  running env w [] -> running env (perform env ev w) [].
Proof.
  intros Hr. destruct (running_flags env w [] Hr) as (_ & _ & Hl & Hrt).
  cbn in Hl, Hrt.
  destruct ev as [text| |cityId|].
  - apply (running_act env (User (TypeQuery text)) w [] _ _ Hr). reflexivity.
  - cbn [perform].
    destruct (begin_search env w) as [w1 new] eqn:E.
    assert (running env w1 (new ++ [])%list) as H1.
    { apply (running_act env (User SubmitSearch) w [] _ _ Hr).
      cbn [act]. now rewrite Hl, E. }
    rewrite <- (settle_begin_search env w w1 new E).
    apply begin_search_cases in E as [(-> & -> & _)|(-> & _)]; [exact H1|].
    apply (running_act env (Arrive 0) w1 _ _ _ H1). reflexivity.
  - cbn [perform].
    destruct (begin_refresh env cityId w) as [w1 new] eqn:E.
    assert (running env w1 (new ++ [])%list) as H1.
    { apply (running_act env (User (ClickRefresh cityId)) w [] _ _ Hr).
      cbn [act]. now rewrite Hl, Hrt, E. }
    rewrite <- (settle_begin_refresh env cityId w w1 new E).
    apply begin_refresh_cases in E as [(-> & -> & _)|(c & _ & -> & _)];
      [exact H1|].
    apply (running_act env (Arrive 0) w1 _ _ _ H1). reflexivity.
  - apply (running_act env (User ToggleUnit) w [] _ _ Hr). reflexivity.
Qed.

Lemma running_run env evs : running env (run env evs) [].
Proof.
  unfold run. induction evs as [|ev evs IH] using rev_ind.
  - apply running_mounted.
  - rewrite fold_left_app. cbn [fold_left]. now apply running_perform.
Qed.

Lemma run_reachable env evs : reachable env (run env evs).
Proof. exists []. apply running_run. Qed.


(** ** The collection after each operation *)

Lemma truthy_not_blank s :
  JsString.truthy (JsString.trim s) = true -> ~ JsString.whitespace_only s.
Proof.
  intros Ht H. apply JsStringFacts.trim_blank in H. rewrite H in Ht.
  discriminate Ht.
Qed.

Lemma not_blank_truthy s :
  ~ JsString.whitespace_only s -> JsString.truthy (JsString.trim s) = true.
Proof.
  intros Hq. destruct (JsString.truthy _) eqn:E; [reflexivity|].
  exfalso. apply Hq. now apply JsStringFacts.trim_blank.
Qed.

Lemma initialize_collection env cities w :
  collection (initialize env cities w)
  = successes env (List.length (requests w)) cities.
Proof. unfold initialize. rewrite loadInitialDataFor_run. reflexivity. Qed.

Lemma search_success_collection env w new :
  ~ JsString.whitespace_only (searchCity (app w)) ->
  fetched env (List.length (requests w)) (searchCity (app w)) = Some new ->
  collection (search env w)
  = new :: filter (fun item =>
                     negb (WeatherData.city item =? WeatherData.city new)%string)
                  (collection w).
Proof.
  intros Hq Hf. unfold search.
  rewrite (handleSearch_run env w (not_blank_truthy _ Hq)), Hf. reflexivity.
Qed.

Lemma search_failure_app env w :
  ~ JsString.whitespace_only (searchCity (app w)) ->
  fetched env (List.length (requests w)) (searchCity (app w)) = None ->
  collection (search env w) = collection w
  /\ error (app (search env w)) = "City not found. Please try again.".
Proof.
  intros Hq Hf. unfold search.
  rewrite (handleSearch_run env w (not_blank_truthy _ Hq)), Hf.
  split; reflexivity.
Qed.

Lemma refresh_success_collection env w cityId c updated :
  lookup cityId (collection w) = Some c ->
  fetched env (List.length (requests w)) (WeatherData.city c) = Some updated ->
  collection (refresh env cityId w) = refreshed cityId updated (collection w).
Proof.
  intros Hc Hf. unfold refresh.
  rewrite (refreshWeather_present env w cityId c Hc), Hf. reflexivity.
Qed.

Lemma refresh_error env w cityId :
  error (app (refresh env cityId w)) = error (app w).
Proof.
  unfold refresh. destruct (lookup cityId (collection w)) as [c|] eqn:Hc.
  - rewrite (refreshWeather_present env w cityId c Hc). reflexivity.
  - rewrite (refreshWeather_absent env w cityId Hc). reflexivity.
Qed.

Lemma search_error env w :
  error (app (search env w)) = error (app w)
  \/ error (app (search env w)) = ""
  \/ error (app (search env w)) = "City not found. Please try again.".
Proof.
  unfold search.
  destruct (JsString.truthy (JsString.trim (searchCity (app w)))) eqn:Ht.
  - rewrite (handleSearch_run env w Ht).
    destruct (fetched env _ _); cbn [snd app error]; auto.
  - rewrite (handleSearch_blank env (app w) w Ht). now left.
Qed.

(** The error message of a reachable world is empty or the one of a city
    that was not found. *)
Lemma running_error env w ps :
  running env w ps ->
  error (app w) = "" \/ error (app w) = "City not found. Please try again.".
Proof.
  apply (running_ind env (fun w _ =>
    error (app w) = ""
    \/ error (app w) = "City not found. Please try again.")).
  - now left.
  - clear w ps. intros a w ps w' ps' _ IH Ha.
    apply act_cases in Ha
      as [(text & _ & -> & _)
         |[(_ & -> & _)
         |[(new & _ & _ & Hbegin & _)
         |[(cityId & new & _ & _ & _ & Hbegin & _)
         |(ps1 & p & ps2 & _ & _ & -> & _)]]]].
    + exact IH.
    + exact IH.
    + apply begin_search_cases in Hbegin
        as [(-> & _)|(_ & _ & _ & _ & _ & _ & _ & _ & E)];
        [exact IH | now left].
    + apply begin_refresh_cases in Hbegin
        as [(-> & _)|(c & _ & _ & _ & _ & _ & _ & _ & _ & E)];
        [exact IH | now rewrite E].
    + destruct p as [k cities|k query|k cityId city].
      * destruct (settle_load env k cities w) as (_ & _ & _ & _ & _ & _ & E).
        now rewrite E.
      * destruct (settle_search env k query w)
          as (_ & _ & _ & _ & [(_ & _ & _ & E)|(new & _ & _ & _ & E)]).
        -- now right.
        -- now rewrite E.
      * destruct (settle_refresh env k cityId city w)
          as (_ & _ & _ & _ & _ & E & _).
        now rewrite E.
Qed.

Lemma reachable_error env w :
  reachable env w ->
  error (app w) = "" \/ error (app w) = "City not found. Please try again.".
Proof. intros [ps Hr]. exact (running_error env w ps Hr). Qed.


(** * The claims *)

(** ** Refresh *)

(** C1 (as amended): for an id present in the collection, a refresh whose
    fetch succeeds keeps the length and the order of the collection, puts
    the fetched record at every position whose record carries that id and
    leaves every other position alone; with pairwise distinct ids that is
    exactly one position; and the ids of the collection are unchanged
    when the fetched record carries the id that was refreshed. *)
Theorem refresh_success_replaces_in_place
  (env : Env) (w : World) (cityId : Z) (c updated : WeatherData.t) :
  lookup cityId (collection w) = Some c ->
  fetched env (List.length (requests w)) (WeatherData.city c) = Some updated ->
  List.length (collection (refresh env cityId w)) = List.length (collection w)
  /\ (forall i d, nth_error (collection w) i = Some d ->
        nth_error (collection (refresh env cityId w)) i =
        Some (if WeatherData.id d =? cityId then updated else d))
  /\ (NoDup (ids (collection w)) ->
        exists l1 l2,
          collection w = (l1 ++ c :: l2)%list /\
          collection (refresh env cityId w) = (l1 ++ updated :: l2)%list)
  /\ (WeatherData.id updated = cityId ->
        ids (collection (refresh env cityId w)) = ids (collection w)).
Proof.
  intros Hc Hf.
  rewrite (refresh_success_collection env w cityId c updated Hc Hf).
  repeat split.
  - apply refreshed_length.
  - intros i d. apply refreshed_nth.
  - intros Hnd. now apply refreshed_split.
  - apply refreshed_same_id.
Qed.

Lemma refresh_success_replaces_in_place_witness :
  exists c updated,
    lookup 1850144 (collection (mounted env_tokyo_again)) = Some c
    /\ fetched env_tokyo_again 5 (WeatherData.city c) = Some updated
    /\ WeatherData.temperature updated = Number.of_Z 31
    /\ nth_error
         (collection (refresh env_tokyo_again 1850144 (mounted env_tokyo_again)))
         2 = Some updated
    /\ ids (collection (refresh env_tokyo_again 1850144 (mounted env_tokyo_again)))
       = ids (collection (mounted env_tokyo_again)).
Proof.
  eexists. eexists.
  split; [reflexivity|]. split; [reflexivity|]. split; [reflexivity|].
  destruct (refresh_success_replaces_in_place
              env_tokyo_again (mounted env_tokyo_again) 1850144 _ _
              eq_refl eq_refl) as (_ & Hnth & _ & Hids).
  split; [exact (Hnth 2%nat _ eq_refl) | exact (Hids eq_refl)].
Defined.

(** C1 (as stated) fails: Paris (France) is on the dashboard; the request
    that refreshes it resolves to the Paris of Texas, and the record that
    takes its place carries another id. *)
Lemma refresh_success_may_change_id :
  In 2988507 (ids (collection (mounted env_two_paris)))
  /\ (exists c updated,
        lookup 2988507 (collection (mounted env_two_paris)) = Some c /\
        fetched env_two_paris
          (List.length (requests (mounted env_two_paris)))
          (WeatherData.city c) = Some updated)
  /\ ids (collection (mounted env_two_paris)) = [2988507]
  /\ ids (collection (refresh env_two_paris 2988507 (mounted env_two_paris)))
     = [4717560]
  /\ ids (collection (refresh env_two_paris 2988507 (mounted env_two_paris)))
     <> ids (collection (mounted env_two_paris)).
Proof.
  split; [left; reflexivity|].
  split; [eexists; eexists; split; reflexivity|].
  split; [reflexivity|]. split; [reflexivity|].
  vm_compute. discriminate.
Qed.

(** C7: refreshing an id that is not in the collection returns at once:
    no request is issued and the world (collection, error message and
    every other cell) is unchanged. *)
Theorem refresh_absent_is_noop (env : Env) (w : World) (cityId : Z) :
  ~ In cityId (ids (collection w)) ->
  refreshWeather env (app w) cityId w = (Normal tt, w)
  /\ refresh env cityId w = w.
Proof.
  intros H. apply lookup_absent in H. unfold refresh.
  rewrite (refreshWeather_absent env w cityId H). split; reflexivity.
Qed.

Lemma refresh_absent_is_noop_witness :
  ~ In 42 (ids (collection (mounted env_rejecting)))
  /\ refresh env_rejecting 42 (mounted env_rejecting) = mounted env_rejecting.
Proof.
  assert (~ In 42 (ids (collection (mounted env_rejecting)))) as H.
  { vm_compute. intros H.
    repeat destruct H as [H|H]; try discriminate H; exact H. }
  split; [exact H|].
  exact (proj2 (refresh_absent_is_noop env_rejecting (mounted env_rejecting) 42 H)).
Defined.

(** C8: for an id in the collection, a refresh whose fetch fails leaves
    the collection and the error message as they were (one request was
    issued, and the refresh indicator is idle again). *)
Theorem refresh_failure_is_silent
  (env : Env) (w : World) (cityId : Z) (c : WeatherData.t) :
  lookup cityId (collection w) = Some c ->
  fetched env (List.length (requests w)) (WeatherData.city c) = None ->
  collection (refresh env cityId w) = collection w
  /\ error (app (refresh env cityId w)) = error (app w)
  /\ retrying (app (refresh env cityId w)) = false
  /\ requests (refresh env cityId w)
     = (requests w ++ [weather_url env (WeatherData.city c)])%list.
Proof.
  intros Hc Hf. unfold refresh.
  rewrite (refreshWeather_present env w cityId c Hc), Hf. repeat split.
Qed.

Lemma refresh_failure_is_silent_witness :
  exists c,
    lookup 2643743 (collection (mounted env_rejecting)) = Some c
    /\ fetched env_rejecting 5 (WeatherData.city c) = None
    /\ collection (refresh env_rejecting 2643743 (mounted env_rejecting))
       = collection (mounted env_rejecting)
    /\ error (app (refresh env_rejecting 2643743 (mounted env_rejecting))) = "".
Proof.
  eexists. split; [reflexivity|]. split; [reflexivity|].
  destruct (refresh_failure_is_silent
              env_rejecting (mounted env_rejecting) 2643743 _ eq_refl eq_refl)
    as (Hc & He & _).
  split; [exact Hc | exact He].
Defined.

(** ** Search *)

(** C4 (as amended): a search whose fetch succeeds with [new] puts [new]
    in front of the old collection from which every record with [new]'s
    city name was removed; the size becomes the old size plus one minus
    the number of records that carried the name, so it is unchanged, with
    [new] at index 0, when exactly one record carried it. *)
Theorem search_success_prepends (env : Env) (w : World) (new : WeatherData.t) :
  ~ JsString.whitespace_only (searchCity (app w)) ->
  fetched env (List.length (requests w)) (searchCity (app w)) = Some new ->
  collection (search env w)
  = new :: filter (fun item =>
                     negb (WeatherData.city item =? WeatherData.city new)%string)
                  (collection w)
  /\ (List.length (collection (search env w))
      + occurrences (WeatherData.city new) (collection w)
      = S (List.length (collection w)))%nat
  /\ (occurrences (WeatherData.city new) (collection w) = 1%nat ->
      List.length (collection (search env w)) = List.length (collection w)
      /\ nth_error (collection (search env w)) 0 = Some new).
Proof.
  intros Hq Hf. rewrite (search_success_collection env w new Hq Hf).
  pose proof (filter_length_occurrences (WeatherData.city new) (collection w)) as L.
  split; [reflexivity|]. split.
  - cbn [List.length]. lia.
  - intros H1. split; [cbn [List.length]; lia | reflexivity].
Qed.

Lemma search_success_prepends_witness :
  ~ JsString.whitespace_only (searchCity (app (typed env_london_again "London")))
  /\ (exists new,
        fetched env_london_again 5 "London" = Some new
        /\ occurrences (WeatherData.city new)
             (collection (typed env_london_again "London")) = 1%nat
        /\ nth_error
             (collection (search env_london_again (typed env_london_again "London")))
             0 = Some new)
  /\ map WeatherData.city
       (collection (search env_london_again (typed env_london_again "London")))
     = ["London"; "New York"; "Tokyo"; "Paris"; "Sydney"].
Proof.
  assert (~ JsString.whitespace_only
            (searchCity (app (typed env_london_again "London")))) as Hq
    by (apply truthy_not_blank; reflexivity).
  split; [exact Hq|]. split; [|reflexivity].
  eexists. split; [reflexivity|]. split; [reflexivity|].
  destruct (search_success_prepends
              env_london_again (typed env_london_again "London") _ Hq eq_refl)
    as (_ & _ & H).
  exact (proj2 (H eq_refl)).
Defined.

(** C4 (as stated) fails: two cards carry the city name "Springfield";
    a search that resolves to a "Springfield" removes both, and the
    collection shrinks from two records to one. *)
Lemma search_present_city_may_shrink :
  reachable env_same_name (typed env_same_name "Springfield")
  /\ (exists new,
        fetched env_same_name
          (List.length (requests (typed env_same_name "Springfield")))
          "Springfield" = Some new
        /\ In (WeatherData.city new)
              (map WeatherData.city
                 (collection (typed env_same_name "Springfield"))))
  /\ NoDup (ids (collection (typed env_same_name "Springfield")))
  /\ List.length (collection (typed env_same_name "Springfield")) = 2%nat
  /\ List.length
       (collection (search env_same_name (typed env_same_name "Springfield")))
     = 1%nat
  /\ List.length
       (collection (search env_same_name (typed env_same_name "Springfield")))
     <> List.length (collection (typed env_same_name "Springfield")).
Proof.
  split; [exact (run_reachable env_same_name [TypeQuery "Springfield"])|].
  split; [eexists; split; [reflexivity | left; reflexivity]|].
  split; [distinct_ids|]. split; [reflexivity|]. split; [reflexivity|].
  vm_compute. discriminate.
Qed.

(** C5: a search with a query that is not blank and whose fetch fails
    leaves the collection as it was and sets the error message, which is
    not empty. *)
Theorem search_failure_sets_error (env : Env) (w : World) :
  ~ JsString.whitespace_only (searchCity (app w)) ->
  fetched env (List.length (requests w)) (searchCity (app w)) = None ->
  collection (search env w) = collection w
  /\ error (app (search env w)) = "City not found. Please try again."
  /\ error (app (search env w)) <> "".
Proof.
  intros Hq Hf. destruct (search_failure_app env w Hq Hf) as [Hc He].
  rewrite Hc, He. repeat split. discriminate.
Qed.

Lemma search_failure_sets_error_witness :
  ~ JsString.whitespace_only
      (searchCity (app (typed env_rejecting "Unknownville")))
  /\ fetched env_rejecting 5 "Unknownville" = None
  /\ collection (search env_rejecting (typed env_rejecting "Unknownville"))
     = collection (typed env_rejecting "Unknownville")
  /\ error (app (search env_rejecting (typed env_rejecting "Unknownville")))
     = "City not found. Please try again.".
Proof.
  assert (~ JsString.whitespace_only
            (searchCity (app (typed env_rejecting "Unknownville")))) as Hq
    by (apply truthy_not_blank; reflexivity).
  split; [exact Hq|]. split; [reflexivity|].
  destruct (search_failure_sets_error
              env_rejecting (typed env_rejecting "Unknownville") Hq eq_refl)
    as (Hc & He & _).
  split; [exact Hc | exact He].
Defined.

(** C6: a search with an empty or whitespace-only query returns at once:
    no request is issued and the world (collection, error message and
    every other cell) is unchanged. *)
Theorem search_blank_is_noop (env : Env) (w : World) :
  JsString.whitespace_only (searchCity (app w)) ->
  handleSearch env (app w) w = (Normal tt, w)
  /\ search env w = w.
Proof.
  intros Hq. apply JsStringFacts.trim_blank in Hq.
  unfold search. rewrite (handleSearch_blank env (app w) w Hq).
  split; reflexivity.
Qed.

Lemma search_blank_is_noop_witness :
  JsString.whitespace_only (searchCity (app (typed env_rejecting "   ")))
  /\ search env_rejecting (typed env_rejecting "   ")
     = typed env_rejecting "   "
  /\ JsString.whitespace_only (searchCity (app (mounted env_rejecting)))
  /\ search env_rejecting (mounted env_rejecting) = mounted env_rejecting.
Proof.
  assert (JsString.whitespace_only
            (searchCity (app (typed env_rejecting "   ")))) as Hq
    by (apply JsStringFacts.trim_blank; reflexivity).
  assert (JsString.whitespace_only
            (searchCity (app (mounted env_rejecting)))) as Hq'
    by (apply JsStringFacts.trim_blank; reflexivity).
  split; [exact Hq|]. split.
  - exact (proj2 (search_blank_is_noop env_rejecting
                    (typed env_rejecting "   ") Hq)).
  - split; [exact Hq'|].
    exact (proj2 (search_blank_is_noop env_rejecting
                    (mounted env_rejecting) Hq')).
Defined.

(** ** Initial load *)

(** C3: for every list of cities and whatever the API answers, the
    initial load sets the collection to the successful results, in the
    order of the cities (the [i]-th city being the [i]-th request issued);
    its size is the number of cities minus the number of failed fetches. *)
Theorem initialize_keeps_successes_in_order
  (env : Env) (cities : list string) (w : World) :
  collection (initialize env cities w)
  = successes env (List.length (requests w)) cities
  /\ successes env (List.length (requests w)) cities
     = flat_map (fun i =>
                   match fetched env (List.length (requests w) + i)
                           (nth i cities "") with
                   | Some d => [d]
                   | None => []
                   end)
                (seq 0 (List.length cities))
  /\ List.length (collection (initialize env cities w))
     = (List.length cities
        - failures env (List.length (requests w)) cities)%nat
  /\ (List.length (collection (initialize env cities w))
      <= List.length cities)%nat.
Proof.
  rewrite initialize_collection.
  pose proof (successes_failures env cities (List.length (requests w))) as L.
  split; [reflexivity|]. split; [apply successes_by_index|]. lia.
Qed.

(** The scenario of the specification: "Unknownville" fails, and the
    collection is the London record followed by the Tokyo record; a later
    search for "London" keeps two records, London first. *)
Example initialize_unknownville :
  map WeatherData.city
    (collection (initialize env_unknownville
                   ["London"; "Unknownville"; "Tokyo"] initial_world))
  = ["London"; "Tokyo"]
  /\ map WeatherData.city
       (collection
          (search env_unknownville
             (perform env_unknownville (TypeQuery "London")
                (initialize env_unknownville
                   ["London"; "Unknownville"; "Tokyo"] initial_world))))
     = ["London"; "Tokyo"].
Proof. split; reflexivity. Qed.

(** ** Uniqueness of ids *)

(** C2 (as amended): from a collection with pairwise distinct ids, one
    guarded operation (an initial load whose successful results have
    pairwise distinct ids, a successful search whose record shares its id
    only with records of its own city name, a successful refresh whose
    record carries the refreshed id or an id not in the collection) leads
    to a collection with pairwise distinct ids. *)
Theorem guarded_step_keeps_ids_distinct (env : Env) (w w' : World) :
  NoDup (ids (collection w)) ->
  guarded_step env w w' ->
  NoDup (ids (collection w')).
Proof.
  intros Hnd Hstep.
  destruct Hstep as [cities Hs | new Hq Hf Hc | cityId c updated Hc Hf Hid].
  - rewrite initialize_collection. exact Hs.
  - rewrite (search_success_collection env w new Hq Hf).
    unfold ids. cbn [map]. constructor; [|now apply ids_filter_NoDup].
    intros Hin. apply in_map_iff in Hin as (d & Hd & Hin).
    apply filter_In in Hin as [Hin Hneq].
    apply Hc in Hd; [|exact Hin].
    rewrite Hd, String.eqb_refl in Hneq. discriminate.
  - rewrite (refresh_success_collection env w cityId c updated Hc Hf).
    destruct Hid as [Hid|Hid].
    + now rewrite refreshed_same_id.
    + now apply refreshed_fresh_id.
Qed.

Lemma guarded_step_keeps_ids_distinct_witness :
  NoDup (ids (collection (typed env_berlin "Berlin")))
  /\ guarded_step env_berlin (typed env_berlin "Berlin")
       (search env_berlin (typed env_berlin "Berlin"))
  /\ ids (collection (search env_berlin (typed env_berlin "Berlin")))
     = [2950159; 2643743; 5128581; 1850144; 2988507; 2147714]
  /\ NoDup (ids (collection (search env_berlin (typed env_berlin "Berlin")))).
Proof.
  assert (NoDup (ids (collection (typed env_berlin "Berlin")))) as Hnd
    by distinct_ids.
  assert (guarded_step env_berlin (typed env_berlin "Berlin")
            (search env_berlin (typed env_berlin "Berlin"))) as Hstep.
  { eapply step_search; [apply truthy_not_blank; reflexivity | reflexivity |].
    intros d Hin Hid. vm_compute in Hin.
    repeat destruct Hin as [Hin|Hin]; try contradiction;
      subst d; discriminate Hid. }
  split; [exact Hnd|]. split; [exact Hstep|]. split; [reflexivity|].
  exact (guarded_step_keeps_ids_distinct env_berlin _ _ Hnd Hstep).
Defined.

(** C2 (as stated) fails: after a mount in which no default city
    resolves, a search resolves to city 2867714 under the name "Muenchen"
    and a second search to the same city under the name "Munich"; the
    filter on the city name keeps the first record, and the reachable
    collection holds the id twice. *)
Lemma ids_may_repeat :
  reachable env_two_spellings (run env_two_spellings two_spellings_events)
  /\ NoDup (ids (collection
              (run env_two_spellings
                 [TypeQuery "Muenchen"; SubmitSearch; TypeQuery "Munich"])))
  /\ run env_two_spellings two_spellings_events
     = search env_two_spellings
         (run env_two_spellings
            [TypeQuery "Muenchen"; SubmitSearch; TypeQuery "Munich"])
  /\ ids (collection (run env_two_spellings two_spellings_events))
     = [2867714; 2867714]
  /\ ~ NoDup (ids (collection (run env_two_spellings two_spellings_events))).
Proof.
  split; [apply run_reachable|]. split; [distinct_ids|].
  split; [reflexivity|]. split; [reflexivity|].
  change (ids (collection (run env_two_spellings two_spellings_events)))
    with [2867714; 2867714].
  intros H. apply NoDup_cons_iff in H as [H _]. apply H. left. reflexivity.
Qed.

(** ** Failures of the fetch *)

(** C10: [fetchWeatherData] always completes normally: a rejected promise
    and a body without a weather entry both give [null]; so the [try]
    block of [handleSearch] never throws and its [catch] block never
    runs (whatever the handler, the outcome is that of the [try] block);
    a failed search with a query that is not blank sets exactly "City not
    found. Please try again."; and the message of the [catch] block is
    set by no search and shown in no reachable world. *)
Theorem fetch_never_throws (env : Env) (w : World) (city : string) :
  (exists result,
     fetchWeatherData env city w
     = (Normal result, requested w (weather_url env city)))
  /\ (axios_get_outcome env (List.length (requests w)) (weather_url env city)
      = Rejected ->
      fetchWeatherData env city w
      = (Normal None, requested w (weather_url env city)))
  /\ (forall data,
        axios_get_outcome env (List.length (requests w)) (weather_url env city)
        = Resolved data ->
        WeatherResponse.weather data = [] ->
        fetchWeatherData env city w
        = (Normal None, requested w (weather_url env city)))
  /\ (forall snapshot, exists w',
        handleSearch_try env snapshot w = (Normal tt, w'))
  /\ (forall snapshot handler,
        try_catch (handleSearch_try env snapshot) handler w
        = handleSearch_try env snapshot w)
  /\ (~ JsString.whitespace_only (searchCity (app w)) ->
      fetched env (List.length (requests w)) (searchCity (app w)) = None ->
      error (app (search env w)) = "City not found. Please try again.")
  /\ (~ JsString.whitespace_only (searchCity (app w)) ->
      error (app (search env w))
      <> "Failed to fetch weather data. Please try again.")
  /\ (reachable env w ->
      error (app w) <> "Failed to fetch weather data. Please try again.").
Proof.
  repeat split.
  - eexists. apply fetchWeatherData_spec.
  - intros H. rewrite fetchWeatherData_spec. unfold fetched. now rewrite H.
  - intros data H Hw. rewrite fetchWeatherData_spec. unfold fetched.
    now rewrite H, Hw.
  - intros snapshot. eexists. apply handleSearch_try_run.
  - intros snapshot handler.
    rewrite (try_catch_normal _ handler _ _ _ (handleSearch_try_run env snapshot w)).
    symmetry. apply handleSearch_try_run.
  - intros Hq Hf. apply (search_failure_app env w Hq Hf).
  - intros Hq. unfold search.
    rewrite (handleSearch_run env w (not_blank_truthy _ Hq)).
    destruct (fetched env _ _); cbn [snd app error]; discriminate.
  - intros Hr. destruct (reachable_error env w Hr) as [E|E]; rewrite E;
      discriminate.
Qed.

Lemma fetch_never_throws_witness :
  axios_get_outcome env_empty_weather
    (List.length (requests (typed env_empty_weather "Nowhere")))
    (weather_url env_empty_weather "Nowhere")
  = Resolved (empty_weather_response "Nowhere" 1)
  /\ fetchWeatherData env_empty_weather "Nowhere"
       (typed env_empty_weather "Nowhere")
     = (Normal None,
        requested (typed env_empty_weather "Nowhere")
          (weather_url env_empty_weather "Nowhere"))
  /\ ~ JsString.whitespace_only
         (searchCity (app (typed env_empty_weather "Nowhere")))
  /\ error (app (search env_empty_weather (typed env_empty_weather "Nowhere")))
     = "City not found. Please try again.".
Proof.
  assert (~ JsString.whitespace_only
            (searchCity (app (typed env_empty_weather "Nowhere")))) as Hq
    by (apply truthy_not_blank; reflexivity).
  destruct (fetch_never_throws env_empty_weather
              (typed env_empty_weather "Nowhere") "Nowhere")
    as (_ & _ & Hempty & _ & _ & Hsearch & _).
  split; [reflexivity|]. split; [exact (Hempty _ eq_refl eq_refl)|].
  split; [exact Hq|]. exact (Hsearch Hq eq_refl).
Defined.

(** ** Temperature display *)

Lemma Math_round_exact (s : bool) (m : positive) (e : Z) :
  Number.denominator (Number.Math_round (S754_finite s m e)) = 1
  /\ Number.numerator (Number.Math_round (S754_finite s m e))
     = Number.nearest_integer (S754_finite s m e).
Proof.
  unfold Number.nearest_integer, Number.Math_round.
  destruct (Z.leb_spec 0 e) as [He|He].
  - cbn [Number.numerator Number.denominator].
    replace (Z.max (- e) 0) with 0 by lia. replace (Z.max e 0) with e by lia.
    change (2 ^ 0) with 1. now rewrite round_half_up_integer.
  - cbn [Number.numerator Number.denominator].
    replace (Z.max (- e) 0) with (- e) by lia.
    replace (Z.max e 0) with 0 by lia.
    change (2 ^ 0) with 1. rewrite Z.mul_1_r.
    destruct (Number.round_half_up (Number.signed s m) (2 ^ (- e)))
      as [|p|p]; cbn [Number.numerator Number.denominator Number.signed];
      split; try reflexivity; change (Z.max 0 0) with 0;
      change (- 0) with 0; change (Z.max 0 0) with 0; change (2 ^ 0) with 1;
      lia.
Qed.

(** C9 (as amended): for every Celsius value and flag the text is the
    JavaScript text of [Math.round t] followed by the degree sign and
    the unit letter, where [t] is the value itself in Celsius and the
    binary64 result of [(celsius * 9) / 5 + 32] in Fahrenheit.  NaN shows
    as NaN, the infinities as Infinity and -Infinity, a zero as 0.  For
    every finite [t] the number printed is exactly the integer nearest to
    [t] (at most one half away, the larger one on a tie), in decimal
    digits when it is below [2 ^ 53] in magnitude.  And 0 shows as "0°C"
    and "32°F", 100 as "212°F"; [2 ^ 53] and [10 ^ 21], which are printed
    by the shortest decimal, as "9007199254740992°C" and "1e+21°C". *)
Theorem displayTemp_rounds_the_binary64_value
  (celsius : Number.t) (useCelsius : bool) :
  convertTemp true celsius = celsius
  /\ convertTemp false celsius
     = Number.add
         (Number.div (Number.mul celsius (Number.of_Z 9)) (Number.of_Z 5))
         (Number.of_Z 32)
  /\ displayTemp celsius useCelsius
     = Number.toString (Number.Math_round (convertTemp useCelsius celsius))
       ++ "°" ++ unit_letter useCelsius
  /\ match convertTemp useCelsius celsius with
     | S754_nan =>
         displayTemp celsius useCelsius = "NaN°" ++ unit_letter useCelsius
     | S754_infinity false =>
         displayTemp celsius useCelsius
         = "Infinity°" ++ unit_letter useCelsius
     | S754_infinity true =>
         displayTemp celsius useCelsius
         = "-Infinity°" ++ unit_letter useCelsius
     | S754_zero _ =>
         displayTemp celsius useCelsius = "0°" ++ unit_letter useCelsius
     | S754_finite s m e =>
         2 * Z.abs (Number.nearest_integer (S754_finite s m e)
                    * Number.denominator (S754_finite s m e)
                    - Number.numerator (S754_finite s m e))
         <= Number.denominator (S754_finite s m e)
         /\ Number.denominator (Number.Math_round (S754_finite s m e)) = 1
         /\ Number.numerator (Number.Math_round (S754_finite s m e))
            = Number.nearest_integer (S754_finite s m e)
         /\ (Z.abs (Number.nearest_integer (S754_finite s m e)) < 2 ^ 53 ->
             displayTemp celsius useCelsius
             = Number.digits (Number.nearest_integer (S754_finite s m e))
               ++ "°" ++ unit_letter useCelsius)
     end
  /\ displayTemp (Number.of_Z 0) true = "0°C"
  /\ displayTemp (Number.of_Z 0) false = "32°F"
  /\ displayTemp (Number.of_Z 100) false = "212°F"
  /\ displayTemp (Number.of_Z (2 ^ 53)) true = "9007199254740992°C"
  /\ displayTemp (Number.of_Z (10 ^ 21)) true = "1e+21°C".
Proof.
  split; [reflexivity|]. split; [reflexivity|]. split; [reflexivity|].
  split; [|repeat split; vm_compute; reflexivity].
  unfold displayTemp, formatTemp. fold (unit_letter useCelsius).
  destruct (convertTemp useCelsius celsius) as [s|[|]| |s m e] eqn:Ht;
    try reflexivity.
  split.
  { apply round_half_up_nearest. cbn [Number.denominator].
    apply Z.pow_pos_nonneg; lia. }
  destruct (Math_round_exact s m e) as [Hd Hn].
  split; [exact Hd|]. split; [exact Hn|].
  intros Hb. now rewrite (Math_round_toString _ s m e eq_refl Hb).
Qed.

Lemma displayTemp_rounds_the_binary64_value_witness :
  convertTemp false body_temperature
  = S754_finite false 6887692680109753 (-46)
  /\ Number.nearest_integer (convertTemp false body_temperature) = 98
  /\ displayTemp body_temperature false = "98°F".
Proof.
  split; [reflexivity|]. split; [reflexivity|].
  pose proof (displayTemp_rounds_the_binary64_value body_temperature false)
    as (_ & _ & _ & H & _).
  change (convertTemp false body_temperature)
    with (S754_finite false 6887692680109753 (-46)) in H.
  destruct H as (_ & _ & _ & H). rewrite H; reflexivity.
Defined.

(** C9 (as stated) fails: at the binary64 number just below 2.5 the
    exact value of [celsius * 9 / 5 + 32] is below 36.5 and rounds to
    36, while the binary64 multiplication rounds up, [convertTemp] gives
    36.5 and the text is "37°F". *)
Lemma displayTemp_differs_from_exact_conversion :
  Number.toString just_below_two_and_a_half = "2.4999999999999996"
  /\ 2 * Number.numerator just_below_two_and_a_half
     < 5 * Number.denominator just_below_two_and_a_half
  /\ exact_fahrenheit_rounded just_below_two_and_a_half = 36
  /\ convertTemp false just_below_two_and_a_half
     = Number.div (Number.of_Z 73) (Number.of_Z 2)
  /\ displayTemp just_below_two_and_a_half false = "37°F"
  /\ displayTemp just_below_two_and_a_half false
     <> Number.digits (exact_fahrenheit_rounded just_below_two_and_a_half)
        ++ "°F".
Proof.
  split; [vm_compute; reflexivity|]. split; [vm_compute; reflexivity|].
  split; [vm_compute; reflexivity|]. split; [vm_compute; reflexivity|].
  split; [vm_compute; reflexivity|]. vm_compute. discriminate.
Qed.

(** * Further properties of the component *)

(** ** The world after each handler *)

Lemma refreshWeather_from_snapshot env snapshot w cityId c :
  lookup cityId (weatherData snapshot) = Some c ->
  refreshWeather env snapshot cityId w =
  (Normal tt,
   {| app :=
        {| weatherData :=
             match fetched env (List.length (requests w)) (WeatherData.city c) with
             | Some updated => refreshed cityId updated (collection w)
             | None => collection w
             end;
           loading := loading (app w);
           searchCity := searchCity (app w);
           error := error (app w);
           isCelsius := isCelsius (app w);
           retrying := false |};
      requests := (requests w ++ [weather_url env (WeatherData.city c)])%list |}).
Proof.
  unfold refreshWeather, lookup, collection. intros ->.
  unfold bind at 1. unfold setRetrying at 1, update at 1.
  unfold bind at 1. rewrite fetchWeatherData_spec. cbn [requests app requested].
  destruct (fetched env _ _) as [updated|]; reflexivity.
Qed.

Lemma refreshed_keeps_others cityId updated l i d :
  nth_error l i = Some d -> WeatherData.id d <> cityId ->
  nth_error (refreshed cityId updated l) i = Some d.
Proof.
  intros H Hne. rewrite (refreshed_nth _ _ _ _ _ H).
  apply Z.eqb_neq in Hne. now rewrite Hne.
Qed.

(** What [refresh] does to the world, in its three cases. *)
Lemma refresh_cases env cityId w :
  refresh env cityId w = w
  \/ exists c,
       lookup cityId (collection w) = Some c
       /\ requests (refresh env cityId w)
          = (requests w ++ [weather_url env (WeatherData.city c)])%list
       /\ loading (app (refresh env cityId w)) = loading (app w)
       /\ searchCity (app (refresh env cityId w)) = searchCity (app w)
       /\ error (app (refresh env cityId w)) = error (app w)
       /\ isCelsius (app (refresh env cityId w)) = isCelsius (app w)
       /\ retrying (app (refresh env cityId w)) = false
       /\ (collection (refresh env cityId w) = collection w
           /\ fetched env (List.length (requests w)) (WeatherData.city c) = None
           \/ exists updated,
                fetched env (List.length (requests w)) (WeatherData.city c)
                = Some updated
                /\ collection (refresh env cityId w)
                   = refreshed cityId updated (collection w)).
Proof.
  unfold refresh. destruct (lookup cityId (collection w)) as [c|] eqn:Hc.
  - right. exists c. rewrite (refreshWeather_present env w cityId c Hc).
    cbn [snd app requests collection weatherData loading searchCity error
         isCelsius retrying].
    repeat (split; [reflexivity|]).
    destruct (fetched env _ _) as [updated|].
    + right. exists updated. split; reflexivity.
    + left. split; reflexivity.
  - left. now rewrite (refreshWeather_absent env w cityId Hc).
Qed.

(** What [search] does to the world, in its three cases. *)
Lemma search_cases env w :
  JsString.whitespace_only (searchCity (app w)) /\ search env w = w
  \/ ~ JsString.whitespace_only (searchCity (app w))
     /\ requests (search env w)
        = (requests w ++ [weather_url env (searchCity (app w))])%list
     /\ loading (app (search env w)) = false
     /\ isCelsius (app (search env w)) = isCelsius (app w)
     /\ retrying (app (search env w)) = retrying (app w)
     /\ (fetched env (List.length (requests w)) (searchCity (app w)) = None
         /\ collection (search env w) = collection w
         /\ searchCity (app (search env w)) = searchCity (app w)
         /\ error (app (search env w)) = "City not found. Please try again."
         \/ exists new,
              fetched env (List.length (requests w)) (searchCity (app w))
              = Some new
              /\ collection (search env w)
                 = new :: filter (fun item =>
                            negb (WeatherData.city item =? WeatherData.city new)%string)
                          (collection w)
              /\ searchCity (app (search env w)) = ""
              /\ error (app (search env w)) = "").
Proof.
  unfold search.
  destruct (JsString.truthy (JsString.trim (searchCity (app w)))) eqn:Ht.
  - right. split; [now apply truthy_not_blank|].
    rewrite (handleSearch_run env w Ht).
    cbn [snd app requests collection weatherData loading searchCity error
         isCelsius retrying].
    split; [reflexivity|].
    destruct (fetched env _ _) as [new|];
      cbn [weatherData loading searchCity error isCelsius retrying].
    + repeat (split; [reflexivity|]). right. exists new. repeat split.
    + repeat (split; [reflexivity|]). left. repeat split.
  - left. split; [now apply JsStringFacts.trim_blank|].
    now rewrite (handleSearch_blank env (app w) w Ht).
Qed.

(** ** Lists of records, continued *)

Lemma filter_other_city_idempotent name l :
  filter (fun item => negb (WeatherData.city item =? name)%string)
    (filter (fun item => negb (WeatherData.city item =? name)%string) l)
  = filter (fun item => negb (WeatherData.city item =? name)%string) l.
Proof.
  induction l as [|d l IH]; [reflexivity|].
  cbn [filter]. destruct (negb (WeatherData.city d =? name)%string) eqn:E.
  - cbn [filter]. rewrite E. now f_equal.
  - exact IH.
Qed.

Lemma occurrences_after_filter name l :
  occurrences name
    (filter (fun item => negb (WeatherData.city item =? name)%string) l) = 0%nat.
Proof.
  unfold occurrences. induction l as [|d l IH]; [reflexivity|].
  cbn [filter]. destruct (WeatherData.city d =? name)%string eqn:E;
    cbn [negb]; [exact IH|].
  cbn [filter]. rewrite E. exact IH.
Qed.

Lemma cities_filter_NoDup (f : WeatherData.t -> bool) l :
  NoDup (cities_of l) -> NoDup (cities_of (filter f l)).
Proof.
  unfold cities_of. induction l as [|d l IH]; intros Hnd; [constructor|].
  cbn [map] in Hnd. apply NoDup_cons_iff in Hnd as [Hd Hnd].
  cbn [filter]. destruct (f d); [|now apply IH].
  cbn [map]. constructor; [|now apply IH].
  intros Hin. apply Hd. apply in_map_iff in Hin as (x & Hx & Hin).
  apply filter_In in Hin as [Hin _]. rewrite <- Hx. now apply in_map.
Qed.

Lemma lookup_own_record l d :
  In d l ->
  exists c, lookup (WeatherData.id d) l = Some c
            /\ WeatherData.id c = WeatherData.id d
            /\ (NoDup (ids l) -> c = d).
Proof.
  unfold lookup, ids. induction l as [|x l IH]; intros Hin; [contradiction|].
  cbn [find]. destruct (Z.eqb_spec (WeatherData.id x) (WeatherData.id d)) as [E|E].
  - exists x. split; [reflexivity|]. split; [exact E|].
    intros Hnd. destruct Hin as [->|Hin]; [reflexivity|].
    cbn [map] in Hnd. apply NoDup_cons_iff in Hnd as [Hx _].
    exfalso. apply Hx. rewrite E. now apply in_map.
  - destruct Hin as [->|Hin]; [contradiction|].
    destruct (IH Hin) as (c & Hc & Hid & Huniq). exists c.
    split; [exact Hc|]. split; [exact Hid|].
    intros Hnd. apply Huniq. cbn [map] in Hnd.
    now apply NoDup_cons_iff in Hnd as [_ Hnd].
Qed.

Lemma string_length_append (a b : string) :
  String.length (a ++ b) = (String.length a + String.length b)%nat.
Proof. induction a as [|x a IH]; simpl; [reflexivity | now rewrite IH]. Qed.

Lemma append_cancel_r (a b c : string) : a ++ c = b ++ c -> a = b.
Proof.
  revert b. induction a as [|x a IH]; intros b H.
  - destruct b as [|y b]; [reflexivity|]. exfalso.
    assert (String.length c = String.length (String y b ++ c)) as L
      by (now rewrite <- H).
    rewrite string_length_append in L. cbn [String.length] in L. lia.
  - destruct b as [|y b].
    + exfalso.
      assert (String.length (String x a ++ c) = String.length c) as L
        by (now rewrite H).
      rewrite string_length_append in L. cbn [String.length] in L. lia.
    + cbn [String.append] in H. injection H as -> H. f_equal. now apply IH.
Qed.

Lemma append_cancel_l (a b c : string) : a ++ b = a ++ c -> b = c.
Proof.
  induction a as [|x a IH]; intros H; [exact H|].
  cbn [String.append] in H. injection H as H. now apply IH.
Qed.

(** ** Flags and bookkeeping of the handlers *)

(** X1: at every moment of a run, with handlers waiting or not, at most
    one initial load or search and at most one refresh wait for their
    answers; [loading] holds exactly while an initial load or a search
    waits, and [retrying] exactly while a refresh waits. *)
Theorem flags_track_pending (env : Env) (w : World) (ps : list Pending) :
  running env w ps ->
  (foreground ps <= 1)%nat
  /\ (background ps <= 1)%nat
  /\ loading (app w) = (0 <? foreground ps)%nat
  /\ retrying (app w) = (0 <? background ps)%nat.
Proof. apply running_flags. Qed.

Lemma flags_track_pending_witness :
  exists w,
    play env_overlap overlap_actions (mounting env_overlap)
    = Some (w, [PendingSearch 6 "Berlin"; PendingRefresh 5 1850144 "Tokyo"])
    /\ loading (app w) = true
    /\ retrying (app w) = true.
Proof.
  eexists. split; [reflexivity|].
  destruct (flags_track_pending env_overlap _
              [PendingSearch 6 "Berlin"; PendingRefresh 5 1850144 "Tokyo"]
              (ex_intro _ overlap_actions eq_refl))
    as (_ & _ & Hl & Hr).
  split; [exact Hl | exact Hr].
Defined.

(** X2: whatever the id and whatever the API answers, a refresh keeps the
    size of the collection, every record whose id is another one, the
    error message, the query, the unit and the loading flag, and issues at
    most one request. *)
Theorem refresh_keeps_shape (env : Env) (cityId : Z) (w : World) :
  List.length (collection (refresh env cityId w)) = List.length (collection w)
  /\ (forall i d,
        nth_error (collection w) i = Some d ->
        WeatherData.id d <> cityId ->
        nth_error (collection (refresh env cityId w)) i = Some d)
  /\ error (app (refresh env cityId w)) = error (app w)
  /\ searchCity (app (refresh env cityId w)) = searchCity (app w)
  /\ loading (app (refresh env cityId w)) = loading (app w)
  /\ isCelsius (app (refresh env cityId w)) = isCelsius (app w)
  /\ exists extra,
       requests (refresh env cityId w) = (requests w ++ extra)%list
       /\ (List.length extra <= 1)%nat.
Proof.
  destruct (refresh_cases env cityId w)
    as [E|(c & _ & Hreq & Hl & Hs & He & Hc & _ & Hcoll)].
  - rewrite E. repeat split; try (intros; assumption).
    exists []. split; [now rewrite app_nil_r | cbn; lia].
  - assert (List.length (collection (refresh env cityId w))
            = List.length (collection w)
            /\ forall i d,
                 nth_error (collection w) i = Some d ->
                 WeatherData.id d <> cityId ->
                 nth_error (collection (refresh env cityId w)) i = Some d)
      as [Hlen Hnth].
    { destruct Hcoll as [[E _]|(updated & _ & E)]; rewrite E.
      - split; [reflexivity | intros; assumption].
      - split; [apply refreshed_length | intros i d; apply refreshed_keeps_others]. }
    repeat split; try assumption.
    eexists. split; [exact Hreq | cbn; lia].
Qed.

(** X3: a refresh started from a stale render, whose list still holds the
    id while the current collection does not, issues its request for the
    city of the stale record and leaves the current collection as it is:
    an evicted record is not brought back. *)
Theorem stale_refresh_changes_nothing
  (env : Env) (snapshot : AppState) (w : World) (cityId : Z) (c : WeatherData.t) :
  lookup cityId (weatherData snapshot) = Some c ->
  ~ In cityId (ids (collection w)) ->
  collection (snd (refreshWeather env snapshot cityId w)) = collection w
  /\ requests (snd (refreshWeather env snapshot cityId w))
     = (requests w ++ [weather_url env (WeatherData.city c)])%list
  /\ error (app (snd (refreshWeather env snapshot cityId w))) = error (app w).
Proof.
  intros Hc Habs. rewrite (refreshWeather_from_snapshot env snapshot w cityId c Hc).
  cbn [snd app requests collection weatherData error].
  split; [|split; reflexivity].
  destruct (fetched env _ _) as [updated|]; [|reflexivity].
  now apply refreshed_other.
Qed.

Lemma stale_refresh_changes_nothing_witness :
  (exists c, lookup 2643743 (weatherData stale_snapshot) = Some c
             /\ fetched env_evicting 6 (WeatherData.city c)
                = Some (sample_record "London" 2643743 14 6))
  /\ ids (collection evicted_world)
     = [999; 5128581; 1850144; 2988507; 2147714]
  /\ ~ In 2643743 (ids (collection evicted_world))
  /\ collection (snd (refreshWeather env_evicting stale_snapshot 2643743
                        evicted_world))
     = collection evicted_world
  /\ List.length (requests (snd (refreshWeather env_evicting stale_snapshot
                                   2643743 evicted_world))) = 7%nat.
Proof.
  assert (~ In 2643743 (ids (collection evicted_world))) as Habs.
  { vm_compute. intros H.
    repeat destruct H as [H|H]; try discriminate H; exact H. }
  split; [eexists; split; reflexivity|]. split; [reflexivity|].
  split; [exact Habs|].
  destruct (stale_refresh_changes_nothing env_evicting stale_snapshot
              evicted_world 2643743 _ eq_refl Habs) as (Hc & Hr & _).
  split; [exact Hc | now rewrite Hr].
Defined.

(** The same in one run with overlap: the refresh of London (request 5)
    still waits when a search (request 6) puts the other London in its
    place; the answer to the refresh then changes nothing. *)
Example refresh_answer_after_eviction :
  option_map (fun d => ids (collection (fst d)))
    (play env_late_answer
       [ Arrive 0; User (ClickRefresh 2643743); User (TypeQuery "London");
         User SubmitSearch; Arrive 0; Arrive 0 ]
       (mounting env_late_answer))
  = Some [999; 5128581; 1850144; 2988507; 2147714].
Proof. reflexivity. Qed.

(** X4: a search with a query that is not blank issues exactly one
    request, for the URL of the query as typed (neither trimmed nor
    encoded), and ends with [loading] false; a success empties the search
    box and the error message, a failure keeps the typed query. *)
Theorem search_bookkeeping (env : Env) (w : World) :
  ~ JsString.whitespace_only (searchCity (app w)) ->
  requests (search env w)
  = (requests w ++ [weather_url env (searchCity (app w))])%list
  /\ loading (app (search env w)) = false
  /\ isCelsius (app (search env w)) = isCelsius (app w)
  /\ retrying (app (search env w)) = retrying (app w)
  /\ (fetched env (List.length (requests w)) (searchCity (app w)) = None ->
      searchCity (app (search env w)) = searchCity (app w))
  /\ (forall new,
        fetched env (List.length (requests w)) (searchCity (app w)) = Some new ->
        searchCity (app (search env w)) = ""
        /\ error (app (search env w)) = "").
Proof.
  intros Hq.
  destruct (search_cases env w) as [[Hb _]|(_ & Hreq & Hl & Hc & Hr & Hcase)];
    [contradiction|].
  repeat (split; [assumption|]).
  destruct Hcase as [(Hf & _ & Hs & _)|(new & Hf & _ & Hs & He)].
  - split; [intros _; exact Hs | intros new H; congruence].
  - split; [intros H; congruence | intros new' _; split; assumption].
Qed.

Lemma search_bookkeeping_witness :
  ~ JsString.whitespace_only
      (searchCity (app (typed env_london_again " London ")))
  /\ requests (search env_london_again (typed env_london_again " London "))
     = (requests (typed env_london_again " London ")
        ++ ["https://api.openweathermap.org/data/2.5/weather?q= London &appid=key&units=metric"])%list
  /\ searchCity (app (search env_london_again
                        (typed env_london_again " London "))) = "".
Proof.
  assert (~ JsString.whitespace_only
            (searchCity (app (typed env_london_again " London ")))) as Hq
    by (apply truthy_not_blank; reflexivity).
  split; [exact Hq|].
  destruct (search_bookkeeping env_london_again
              (typed env_london_again " London ") Hq)
    as (Hreq & _ & _ & _ & _ & Hok).
  split; [exact Hreq | exact (proj1 (Hok _ eq_refl))].
Defined.

(** ** The collection under search *)

(** X5: after a search that succeeds with [new], exactly one record of
    the collection carries [new]'s city name; every record of another
    city is still there; and every record there is [new] or an old record
    of another city. *)
Theorem search_success_city_once (env : Env) (w : World) (new : WeatherData.t) :
  ~ JsString.whitespace_only (searchCity (app w)) ->
  fetched env (List.length (requests w)) (searchCity (app w)) = Some new ->
  occurrences (WeatherData.city new) (collection (search env w)) = 1%nat
  /\ (forall d, In d (collection w) ->
        WeatherData.city d <> WeatherData.city new ->
        In d (collection (search env w)))
  /\ (forall d, In d (collection (search env w)) ->
        d = new
        \/ In d (collection w) /\ WeatherData.city d <> WeatherData.city new).
Proof.
  intros Hq Hf. rewrite (search_success_collection env w new Hq Hf).
  split; [|split].
  - pose proof (occurrences_after_filter (WeatherData.city new) (collection w)) as H0.
    unfold occurrences in *. cbn [filter]. rewrite String.eqb_refl.
    cbn [List.length]. now rewrite H0.
  - intros d Hin Hne. right. apply filter_In. split; [exact Hin|].
    apply String.eqb_neq in Hne. now rewrite Hne.
  - intros d [<-|Hin]; [now left|]. right.
    apply filter_In in Hin as [Hin Hne]. split; [exact Hin|].
    apply String.eqb_neq. now destruct (WeatherData.city d =? WeatherData.city new)%string.
Qed.

Lemma search_success_city_once_witness :
  ~ JsString.whitespace_only
      (searchCity (app (typed env_same_name "Springfield")))
  /\ occurrences "Springfield" (collection (typed env_same_name "Springfield"))
     = 2%nat
  /\ occurrences "Springfield"
       (collection (search env_same_name (typed env_same_name "Springfield")))
     = 1%nat.
Proof.
  assert (~ JsString.whitespace_only
            (searchCity (app (typed env_same_name "Springfield")))) as Hq
    by (apply truthy_not_blank; reflexivity).
  split; [exact Hq|]. split; [reflexivity|].
  exact (proj1 (search_success_city_once env_same_name
                  (typed env_same_name "Springfield") _ Hq eq_refl)).
Defined.

(** X6: a search, whatever its outcome, keeps the city names of the
    collection pairwise distinct when they were. *)
Theorem search_keeps_cities_distinct (env : Env) (w : World) :
  NoDup (cities_of (collection w)) ->
  NoDup (cities_of (collection (search env w))).
Proof.
  intros Hnd.
  destruct (search_cases env w) as [[_ E]|(_ & _ & _ & _ & _ & Hcase)].
  - now rewrite E.
  - destruct Hcase as [(_ & E & _)|(new & _ & E & _)]; rewrite E; [exact Hnd|].
    unfold cities_of. cbn [map]. constructor.
    + intros Hin. apply in_map_iff in Hin as (d & Hd & Hin).
      apply filter_In in Hin as [_ Hne].
      rewrite Hd, String.eqb_refl in Hne. discriminate.
    + now apply cities_filter_NoDup.
Qed.

Lemma search_keeps_cities_distinct_witness :
  NoDup (cities_of (collection (typed env_london_again "London")))
  /\ cities_of (collection (search env_london_again
                              (typed env_london_again "London")))
     = ["London"; "New York"; "Tokyo"; "Paris"; "Sydney"]
  /\ NoDup (cities_of (collection (search env_london_again
                                     (typed env_london_again "London")))).
Proof.
  assert (NoDup (cities_of (collection (typed env_london_again "London"))))
    as Hnd by distinct_ids.
  split; [exact Hnd|]. split; [reflexivity|].
  exact (search_keeps_cities_distinct env_london_again _ Hnd).
Defined.

(** X7: two successful searches in a row that resolve to the same city
    name leave the collection as the second one alone would have: the
    second record in front of the original collection without that city. *)
Theorem search_twice_same_city
  (env : Env) (w : World) (query : string) (first second : WeatherData.t) :
  ~ JsString.whitespace_only (searchCity (app w)) ->
  fetched env (List.length (requests w)) (searchCity (app w)) = Some first ->
  ~ JsString.whitespace_only query ->
  fetched env (S (List.length (requests w))) query = Some second ->
  WeatherData.city second = WeatherData.city first ->
  collection (search env (perform env (TypeQuery query) (search env w)))
  = second :: filter (fun item =>
                        negb (WeatherData.city item =? WeatherData.city second)%string)
                     (collection w).
Proof.
  intros Hq1 Hf1 Hq2 Hf2 Hcity.
  destruct (search_cases env w) as [[Hb _]|(_ & Hreq & _)]; [contradiction|].
  set (w1 := search env w) in *.
  set (w2 := perform env (TypeQuery query) w1).
  assert (requests w2 = requests w1) as Hr2 by reflexivity.
  assert (searchCity (app w2) = query) as Hs2 by reflexivity.
  assert (collection w2 = collection w1) as Hc2 by reflexivity.
  assert (fetched env (List.length (requests w2)) (searchCity (app w2))
          = Some second) as Hf2'.
  { rewrite Hr2, Hs2, Hreq, length_app. cbn [List.length].
    now rewrite Nat.add_1_r. }
  rewrite Hs2 in Hf2'.
  assert (~ JsString.whitespace_only (searchCity (app w2))) as Hq2'
    by (now rewrite Hs2).
  rewrite <- Hs2 in Hf2'.
  rewrite (search_success_collection env w2 second Hq2' Hf2').
  rewrite Hc2. unfold w1.
  rewrite (search_success_collection env w first Hq1 Hf1).
  f_equal. cbn [filter]. rewrite Hcity, String.eqb_refl. cbn [negb].
  apply filter_other_city_idempotent.
Qed.

Lemma search_twice_same_city_witness :
  cities_of
    (collection
       (search env_two_visits
          (perform env_two_visits (TypeQuery "berlin")
             (search env_two_visits (typed env_two_visits "Berlin")))))
  = ["Berlin"; "London"; "New York"; "Tokyo"; "Paris"; "Sydney"]
  /\ map WeatherData.temperature
       (firstn 1
          (collection
             (search env_two_visits
                (perform env_two_visits (TypeQuery "berlin")
                   (search env_two_visits (typed env_two_visits "Berlin"))))))
     = [Number.of_Z 11].
Proof.
  assert (~ JsString.whitespace_only
            (searchCity (app (typed env_two_visits "Berlin")))) as Hq1
    by (apply truthy_not_blank; reflexivity).
  assert (~ JsString.whitespace_only "berlin") as Hq2
    by (apply truthy_not_blank; reflexivity).
  rewrite (search_twice_same_city env_two_visits (typed env_two_visits "Berlin")
             "berlin" _ _ Hq1 eq_refl Hq2 eq_refl eq_refl).
  split; reflexivity.
Defined.

(** ** Bounds along a run *)

Lemma perform_collection_growth env ev w :
  (List.length (collection (perform env ev w))
   <= List.length (collection w)
      + match ev with SubmitSearch => 1 | _ => 0 end)%nat.
Proof.
  destruct ev as [text| |cityId|]; cbn [perform].
  - change (collection (snd (setSearchCity text w))) with (collection w). lia.
  - destruct (search_cases env w) as [[_ E]|(_ & _ & _ & _ & _ & Hcase)].
    + rewrite E. lia.
    + destruct Hcase as [(_ & E & _)|(new & _ & E & _)]; rewrite E; [lia|].
      cbn [List.length].
      pose proof (filter_length_occurrences (WeatherData.city new) (collection w)).
      lia.
  - destruct (refresh_cases env cityId w)
      as [E|(c & _ & _ & _ & _ & _ & _ & _ & Hcoll)].
    + rewrite E. lia.
    + destruct Hcoll as [[E _]|(updated & _ & E)]; rewrite E; [lia|].
      rewrite refreshed_length. lia.
  - change (collection (snd (setIsCelsius (negb (isCelsius (app w))) w)))
      with (collection w). lia.
Qed.

Lemma perform_requests env ev w :
  exists extra,
    requests (perform env ev w) = (requests w ++ extra)%list
    /\ (List.length extra <= 1)%nat
    /\ match ev with
       | TypeQuery _ | ToggleUnit => extra = []
       | _ => True
       end.
Proof.
  destruct ev as [text| |cityId|]; cbn [perform].
  - exists []. cbn. rewrite app_nil_r. repeat split. lia.
  - destruct (search_cases env w) as [[_ E]|(_ & Hreq & _)].
    + exists []. rewrite E, app_nil_r. repeat split. cbn; lia.
    + eexists. split; [exact Hreq|]. split; [cbn; lia | exact I].
  - destruct (refresh_cases env cityId w) as [E|(c & _ & Hreq & _)].
    + exists []. rewrite E, app_nil_r. repeat split. cbn; lia.
    + eexists. split; [exact Hreq|]. split; [cbn; lia | exact I].
  - exists []. cbn. rewrite app_nil_r. repeat split. lia.
Qed.

Lemma run_from_snoc env w evs ev :
  run_from env w (evs ++ [ev]) = perform env ev (run_from env w evs).
Proof. unfold run_from. now rewrite fold_left_app. Qed.

Lemma submissions_snoc evs ev :
  submissions (evs ++ [ev])
  = (submissions evs + match ev with SubmitSearch => 1 | _ => 0 end)%nat.
Proof.
  unfold submissions. rewrite filter_app, length_app.
  destruct ev; reflexivity.
Qed.

(** X8: only a submitted search can enlarge the collection, and by one
    record at most: after any events the collection has at most as many
    records more than at the start as searches were submitted; so after
    the mount and [n] submissions it has at most [5 + n] records. *)
Theorem collection_grows_by_searches_only
  (env : Env) (w : World) (evs : list Event) :
  (List.length (collection (run_from env w evs))
   <= List.length (collection w) + submissions evs)%nat
  /\ (List.length (collection (run env evs)) <= 5 + submissions evs)%nat.
Proof.
  assert (forall w0,
            (List.length (collection (run_from env w0 evs))
             <= List.length (collection w0) + submissions evs)%nat) as H.
  { intros w0. induction evs as [|ev evs IH] using rev_ind.
    - cbn. lia.
    - rewrite run_from_snoc, submissions_snoc.
      pose proof (perform_collection_growth env ev (run_from env w0 evs)). lia. }
  split; [apply H|].
  change (run env evs) with (run_from env (mounted env) evs).
  specialize (H (mounted env)).
  assert (List.length (collection (mounted env)) <= 5)%nat as Hm.
  { unfold mounted. rewrite initialize_collection.
    pose proof (successes_failures env DEFAULT_CITIES
                  (List.length (requests initial_world))) as L.
    change (List.length DEFAULT_CITIES) with 5%nat in L. lia. }
  lia.
Qed.

(** X9: the log of requests only grows, by at most one request per event
    and by none when the user types or switches the unit; the mount
    issues the five requests of the default cities, in their order, and a
    run of [n] events has issued at most [5 + n] requests. *)
Theorem requests_grow_by_one_per_event
  (env : Env) (evs : list Event) :
  (forall w ev, exists extra,
     requests (perform env ev w) = (requests w ++ extra)%list
     /\ (List.length extra <= 1)%nat
     /\ match ev with
        | TypeQuery _ | ToggleUnit => extra = []
        | _ => True
        end)
  /\ requests (mounted env) = map (weather_url env) DEFAULT_CITIES
  /\ (exists later,
        requests (run env evs)
        = (map (weather_url env) DEFAULT_CITIES ++ later)%list
        /\ (List.length later <= List.length evs)%nat).
Proof.
  split; [intros w ev; apply perform_requests|].
  assert (requests (mounted env) = map (weather_url env) DEFAULT_CITIES) as Hm.
  { unfold mounted, initialize. rewrite loadInitialDataFor_run. reflexivity. }
  split; [exact Hm|].
  change (run env evs) with (run_from env (mounted env) evs).
  induction evs as [|ev evs (later & Hreq & Hlen)] using rev_ind.
  - exists []. cbn [run_from fold_left]. rewrite app_nil_r.
    split; [exact Hm | cbn; lia].
  - rewrite run_from_snoc.
    destruct (perform_requests env ev (run_from env (mounted env) evs))
      as (extra & E & Hex & _).
    exists (later ++ extra)%list. rewrite E, Hreq, <- app_assoc.
    split; [reflexivity|]. rewrite !length_app. cbn [List.length]. lia.
Qed.

(** ** The initial load *)

(** X10: the initial load issues one request per city, in the order of
    the cities, ends with [loading] false and leaves the query, the error
    message, the unit and the refresh flag as they were; the collection it
    installs does not depend on the collection it replaces. *)
Theorem initialize_bookkeeping (env : Env) (cities : list string) (w : World) :
  requests (initialize env cities w)
  = (requests w ++ map (weather_url env) cities)%list
  /\ loading (app (initialize env cities w)) = false
  /\ searchCity (app (initialize env cities w)) = searchCity (app w)
  /\ error (app (initialize env cities w)) = error (app w)
  /\ isCelsius (app (initialize env cities w)) = isCelsius (app w)
  /\ retrying (app (initialize env cities w)) = retrying (app w)
  /\ (forall w',
        List.length (requests w') = List.length (requests w) ->
        collection (initialize env cities w')
        = collection (initialize env cities w)).
Proof.
  unfold initialize. rewrite loadInitialDataFor_run.
  repeat split. intros w' Hlen. rewrite loadInitialDataFor_run.
  cbn [snd collection app weatherData]. now rewrite Hlen.
Qed.

(** ** Where the records come from *)

Lemma successes_provenance env cities : forall k d,
  In d (successes env k cities) ->
  exists i city,
    nth_error cities i = Some city /\ fetched env (k + i) city = Some d.
Proof.
  induction cities as [|c cs IH]; intros k d Hin; [contradiction|].
  cbn [successes] in Hin.
  assert (In d (successes env (S k) cs) ->
          exists i city,
            nth_error (c :: cs) i = Some city
            /\ fetched env (k + i) city = Some d) as Hrest.
  { intros H. destruct (IH (S k) d H) as (i & city & Hn & Hf).
    exists (S i), city. split; [exact Hn|].
    now rewrite Nat.add_succ_r. }
  destruct (fetched env k c) as [x|] eqn:E; [|now apply Hrest].
  destruct Hin as [<-|Hin]; [|now apply Hrest].
  exists 0%nat, c. split; [reflexivity|]. now rewrite Nat.add_0_r.
Qed.

Lemma provenance_step env w w' extra :
  requests w' = (requests w ++ extra)%list ->
  provenance env w ->
  (forall d, In d (collection w') ->
     In d (collection w)
     \/ exists k city,
          nth_error (requests w') k = Some (weather_url env city)
          /\ fetched env k city = Some d) ->
  provenance env w'.
Proof.
  intros Hreq Hp Hnew d Hin.
  destruct (Hnew d Hin) as [Hold|(k & city & Hn & Hf)].
  - destruct (Hp d Hold) as (k & city & Hn & Hf). exists k, city.
    split; [|exact Hf]. rewrite Hreq, nth_error_app1; [exact Hn|].
    apply nth_error_Some. now rewrite Hn.
  - now exists k, city.
Qed.

Lemma pending_logged_step env w w' extra p :
  requests w' = (requests w ++ extra)%list ->
  pending_logged env w p -> pending_logged env w' p.
Proof.
  intros Hreq.
  assert (forall k x, nth_error (requests w) k = Some x ->
                      nth_error (requests w') k = Some x) as Hmono.
  { intros k x H. rewrite Hreq, nth_error_app1; [exact H|].
    apply nth_error_Some. now rewrite H. }
  destruct p as [k cities|k query|k cityId city]; cbn [pending_logged].
  - intros H i city Hi. now apply Hmono, H.
  - apply Hmono.
  - apply Hmono.
Qed.

Lemma nth_error_snoc {A} (l : list A) (x : A) :
  nth_error (l ++ [x]) (List.length l) = Some x.
Proof. rewrite nth_error_app2, Nat.sub_diag; [reflexivity | lia]. Qed.

(** The records come from logged requests, and so will those of the
    handlers that wait. *)
Lemma running_provenance env w ps :
  running env w ps ->
  provenance env w /\ Forall (pending_logged env w) ps.
Proof.
  apply (running_ind env (fun w ps =>
    provenance env w /\ Forall (pending_logged env w) ps)).
  - split; [intros d []|]. constructor; [|constructor].
    intros i city Hi. cbn [mounting begin_load fst requests initial_world].
    cbn [List.app List.length Nat.add]. now apply map_nth_error.
  - clear w ps. intros a w ps w' ps' _ [Hp Hlog] Ha.
    apply act_cases in Ha
      as [(text & _ & -> & ->)
         |[(_ & -> & ->)
         |[(new & _ & _ & Hbegin & ->)
         |[(cityId & new & _ & _ & _ & Hbegin & ->)
         |(ps1 & p & ps2 & _ & -> & -> & ->)]]]].
    + split; [exact Hp | exact Hlog].
    + split; [exact Hp | exact Hlog].
    + apply begin_search_cases in Hbegin
        as [(-> & -> & _)|(-> & _ & Hreq & Hc & _)];
        [split; [exact Hp | exact Hlog]|].
      split.
      * apply (provenance_step env w _ _ Hreq Hp). intros d Hin.
        left. now rewrite Hc in Hin.
      * cbn [List.app]. constructor.
        -- cbn [pending_logged]. rewrite Hreq. apply nth_error_snoc.
        -- eapply Forall_impl; [|exact Hlog].
           intros p. now apply (pending_logged_step env w _ _ p Hreq).
    + apply begin_refresh_cases in Hbegin
        as [(-> & -> & _)|(c & _ & -> & Hreq & Hc & _)];
        [split; [exact Hp | exact Hlog]|].
      split.
      * apply (provenance_step env w _ _ Hreq Hp). intros d Hin.
        left. now rewrite Hc in Hin.
      * cbn [List.app]. constructor.
        -- cbn [pending_logged]. rewrite Hreq. apply nth_error_snoc.
        -- eapply Forall_impl; [|exact Hlog].
           intros p. now apply (pending_logged_step env w _ _ p Hreq).
    + apply Forall_app in Hlog as [Hlog1 Hlog2].
      apply Forall_cons_iff in Hlog2 as [Hlogp Hlog2].
      assert (requests (settle env p w) = (requests w ++ [])%list) as Hreq.
      { rewrite app_nil_r.
        destruct p as [k cities|k query|k cityId city].
        - apply settle_load.
        - apply settle_search.
        - apply settle_refresh. }
      split.
      * apply (provenance_step env w _ _ Hreq Hp). intros d Hin.
        rewrite Hreq, app_nil_r.
        destruct p as [k cities|k query|k cityId city];
          cbn [pending_logged] in Hlogp.
        -- destruct (settle_load env k cities w) as (E & _).
           rewrite E in Hin.
           apply successes_provenance in Hin as (i & city & Hi & Hf).
           right. exists (k + i)%nat, city. split; [now apply Hlogp | exact Hf].
        -- destruct (settle_search env k query w)
             as (_ & _ & _ & _ & [(_ & E & _)|(new & Hf & E & _)]);
             rewrite E in Hin; [now left|].
           destruct Hin as [<-|Hin].
           ++ right. now exists k, query.
           ++ left. now apply filter_In in Hin as [Hin _].
        -- destruct (settle_refresh env k cityId city w)
             as (_ & _ & _ & _ & _ & _ & [(_ & E)|(updated & Hf & E)]);
             rewrite E in Hin; [now left|].
           unfold refreshed in Hin. apply in_map_iff in Hin as (x & Hx & Hin).
           destruct (WeatherData.id x =? cityId).
           ++ right. exists k, city. subst d. now split.
           ++ left. now subst d.
      * apply Forall_app. split.
        -- eapply Forall_impl; [|exact Hlog1].
           intros q. now apply (pending_logged_step env w _ _ q Hreq).
        -- eapply Forall_impl; [|exact Hlog2].
           intros q. now apply (pending_logged_step env w _ _ q Hreq).
Qed.

Lemma reachable_provenance env w : reachable env w -> provenance env w.
Proof. intros [ps Hr]. exact (proj1 (running_provenance env w ps Hr)). Qed.

Lemma fetched_timestamp env k city d :
  fetched env k city = Some d -> WeatherData.lastUpdated d = Date_now env k.
Proof.
  unfold fetched. destruct (axios_get_outcome env k _) as [|data]; [discriminate|].
  destruct (WeatherResponse.weather data); [discriminate|].
  intros H. injection H as <-. reflexivity.
Qed.

(** X11: every record on the dashboard was fetched: in every reachable
    world each record of the collection is what some request of the log
    yielded, for the city that request asked for, and its time stamp is
    the clock reading taken for that request. *)
Theorem reachable_records_were_fetched (env : Env) (w : World) :
  reachable env w ->
  forall d, In d (collection w) ->
    exists k city,
      nth_error (requests w) k = Some (weather_url env city)
      /\ fetched env k city = Some d
      /\ WeatherData.lastUpdated d = Date_now env k.
Proof.
  intros Hr d Hin.
  destruct (reachable_provenance env w Hr d Hin) as (k & city & Hn & Hf).
  exists k, city. split; [exact Hn|]. split; [exact Hf|].
  now apply fetched_timestamp in Hf.
Qed.

Lemma reachable_records_were_fetched_witness :
  reachable env_two_paris
    (run env_two_paris [ClickRefresh 2988507])
  /\ ids (collection (run env_two_paris [ClickRefresh 2988507])) = [4717560]
  /\ forall d, In d (collection (run env_two_paris [ClickRefresh 2988507])) ->
       exists k city,
         nth_error (requests (run env_two_paris [ClickRefresh 2988507])) k
         = Some (weather_url env_two_paris city)
         /\ fetched env_two_paris k city = Some d
         /\ WeatherData.lastUpdated d = Date_now env_two_paris k.
Proof.
  split; [apply run_reachable|]. split; [reflexivity|].
  exact (reachable_records_were_fetched env_two_paris _
           (run_reachable env_two_paris [ClickRefresh 2988507])).
Defined.

(** ** The rendered view *)

(** X12: the view along a run, with handlers waiting or not: the spinner
    is shown and submitting is disabled exactly while an initial load or
    a search waits; otherwise the grid shows one card per record, in the
    order of the collection and keyed by the ids; a refresh button that
    is shown is disabled exactly while a refresh waits; and the error
    paragraph is absent or reads "City not found. Please try again.". *)
Theorem view_tracks_pending
  (formatTime : Date -> string) (env : Env) (w : World) (ps : list Pending) :
  running env w ps ->
  (foreground ps = 0%nat \/ foreground ps = 1%nat)
  /\ (foreground ps = 1%nat ->
      body (render formatTime (app w)) = Spinner
      /\ submit_disabled (render formatTime (app w)) = true)
  /\ (foreground ps = 0%nat ->
      body (render formatTime (app w))
      = Grid (map (render_card formatTime (app w)) (collection w))
      /\ map card_key (cards_of (render formatTime (app w)))
         = ids (collection w)
      /\ submit_disabled (render formatTime (app w)) = false)
  /\ (forall card, In card (cards_of (render formatTime (app w))) ->
        card_refresh_disabled card = (0 <? background ps)%nat)
  /\ (error_paragraph (render formatTime (app w)) = None
      \/ error_paragraph (render formatTime (app w))
         = Some "City not found. Please try again.").
Proof.
  intros Hr. destruct (running_flags env w ps Hr) as (Hf & _ & Hl & Hrt).
  split; [lia|]. split; [|split; [|split]].
  - intros E. rewrite E in Hl. cbn in Hl. unfold render.
    cbn [body submit_disabled].
    rewrite Hl. split; reflexivity.
  - intros E. rewrite E in Hl. cbn in Hl. unfold cards_of, render.
    cbn [body submit_disabled]. rewrite Hl. fold (collection w).
    split; [reflexivity|]. split; [|reflexivity].
    unfold ids. rewrite map_map. reflexivity.
  - intros card. unfold cards_of, render. cbn [body].
    destruct (loading (app w)); [intros []|].
    intros Hin. apply in_map_iff in Hin as (d & <- & _). exact Hrt.
  - unfold render. cbn [error_paragraph].
    destruct (running_error env w ps Hr) as [E|E]; rewrite E; [left|right];
      reflexivity.
Qed.

Lemma view_tracks_pending_witness :
  exists w,
    play env_overlap [Arrive 0; User (ClickRefresh 1850144)]
      (mounting env_overlap)
    = Some (w, [PendingRefresh 5 1850144 "Tokyo"])
    /\ submit_disabled (render Number.digits (app w)) = false
    /\ map card_refresh_disabled (cards_of (render Number.digits (app w)))
       = [true; true; true; true; true]
    /\ map card_city (cards_of (render Number.digits (app w)))
       = ["London"; "New York"; "Tokyo"; "Paris"; "Sydney"].
Proof.
  eexists. split; [reflexivity|].
  destruct (view_tracks_pending Number.digits env_overlap _
              [PendingRefresh 5 1850144 "Tokyo"]
              (ex_intro _ [Arrive 0; User (ClickRefresh 1850144)] eq_refl))
    as (_ & _ & Hgrid & _).
  split; [exact (proj2 (proj2 (Hgrid eq_refl)))|]. split; reflexivity.
Defined.

(** X13: the refresh button of a card always finds a record: its target
    is the id of some record of the state, so the handler never takes the
    branch of an absent id; with pairwise distinct ids the record found is
    the card's own, and the request asks for the city the card shows. *)
Theorem refresh_button_finds_its_record
  (formatTime : Date -> string) (st : AppState) (card : Card) :
  In card (cards_of (render formatTime st)) ->
  exists c,
    lookup (card_refresh_target card) (weatherData st) = Some c
    /\ WeatherData.id c = card_key card
    /\ (NoDup (ids (weatherData st)) ->
        WeatherData.city c = card_city card
        /\ card = render_card formatTime st c).
Proof.
  unfold cards_of, render. cbn [body].
  destruct (loading st); [intros []|].
  intros Hin. apply in_map_iff in Hin as (d & <- & Hin).
  destruct (lookup_own_record (weatherData st) d Hin) as (c & Hc & Hid & Huniq).
  exists c. cbn [render_card card_refresh_target card_key card_city].
  split; [exact Hc|]. split; [exact Hid|].
  intros Hnd. rewrite (Huniq Hnd). split; reflexivity.
Qed.

Lemma refresh_button_finds_its_record_witness :
  In (render_card Number.digits (app (mounted env_rejecting))
        (sample_record "Tokyo" 1850144 18 2))
     (cards_of (render Number.digits (app (mounted env_rejecting))))
  /\ exists c,
       lookup 1850144 (weatherData (app (mounted env_rejecting))) = Some c
       /\ WeatherData.id c = 1850144.
Proof.
  assert (In (render_card Number.digits (app (mounted env_rejecting))
                (sample_record "Tokyo" 1850144 18 2))
             (cards_of (render Number.digits (app (mounted env_rejecting)))))
    as Hin by (right; right; left; reflexivity).
  split; [exact Hin|].
  destruct (refresh_button_finds_its_record Number.digits
              (app (mounted env_rejecting)) _ Hin) as (c & Hc & Hid & _).
  exists c. split; [exact Hc | exact Hid].
Defined.

(** X14: switching the unit touches nothing but the unit (no request, the
    same collection), and switching twice restores the world; every
    temperature text of the view ends with the unit in force, and the
    label of the switch offers the other one. *)
Theorem toggle_unit_spec
  (formatTime : Date -> string) (env : Env) (w : World) :
  perform env ToggleUnit (perform env ToggleUnit w) = w
  /\ collection (perform env ToggleUnit w) = collection w
  /\ requests (perform env ToggleUnit w) = requests w
  /\ isCelsius (app (perform env ToggleUnit w)) = negb (isCelsius (app w))
  /\ (forall card, In card (cards_of (render formatTime (app w))) ->
        ends_with (if isCelsius (app w) then "°C" else "°F")
          (card_temperature card)
        /\ ends_with (if isCelsius (app w) then "°C" else "°F")
             (card_feels_like card))
  /\ toggle_label (render formatTime (app w))
     = "Switch to " ++ (if isCelsius (app w) then "°F" else "°C")
  /\ toggle_label (render formatTime (app (perform env ToggleUnit w)))
     = "Switch to " ++ (if isCelsius (app w) then "°C" else "°F").
Proof.
  split.
  { destruct w as [[wd ld sc er ic rt] reqs]. cbn.
    now rewrite negb_involutive. }
  repeat (split; [reflexivity|]).
  split.
  - intros card. unfold cards_of, render. cbn [body].
    destruct (loading (app w)); [intros []|].
    intros Hin. apply in_map_iff in Hin as (d & <- & _).
    cbn [render_card card_temperature card_feels_like]. unfold formatTemp.
    split.
    + destruct (isCelsius (app w)); eexists; reflexivity.
    + exists ("Feels like " ++
              Number.toString
                (Number.Math_round
                   (convertTemp (isCelsius (app w)) (WeatherData.feelsLike d)))).
      rewrite JsStringFacts.append_assoc.
      destruct (isCelsius (app w)); reflexivity.
  - split; [reflexivity|]. cbn. now destruct (isCelsius (app w)).
Qed.

(** ** The request URL *)

(** X15: the URL carries the city exactly as given: two cities give the
    same URL only when they are the same string, so a query with
    surrounding blanks or another spelling is another request. *)
Theorem weather_url_injective (env : Env) (city1 city2 : string) :
  weather_url env city1 = weather_url env city2 <-> city1 = city2.
Proof.
  split; [|now intros ->].
  unfold weather_url. intros H.
  apply append_cancel_l in H. now apply append_cancel_r in H.
Qed.

(** ** Exactness of the temperature display *)

Lemma Z_range_covers lo n k :
  lo <= k < lo + Z.of_nat n -> In k (Z_range lo n).
Proof.
  intros H. unfold Z_range. apply in_map_iff.
  exists (Z.to_nat (k - lo)). split; [lia|]. apply in_seq. lia.
Qed.

Lemma display_checked :
  forallb display_is_exact (Z_range (-1000) 2001) = true.
Proof. vm_compute. reflexivity. Qed.

(** X16: for every temperature from -100.0 to 100.0 degrees Celsius in
    steps of a tenth, both displays are exact: the text shows the integer
    nearest to the temperature, or to its exact Fahrenheit value
    [(9 * k + 1600) / 50], ties upwards; the binary floating-point
    arithmetic of [convertTemp] never shifts the integer shown. *)
Theorem display_exact_for_tenths (k : Z) :
  -1000 <= k <= 1000 ->
  displayTemp (tenths k) true
  = Number.digits (Number.round_half_up k 10) ++ "°C"
  /\ displayTemp (tenths k) false
     = Number.digits (Number.round_half_up (9 * k + 1600) 50) ++ "°F".
Proof.
  intros Hk.
  pose proof (proj1 (forallb_forall _ _) display_checked k
                (Z_range_covers (-1000) 2001 k ltac:(lia))) as H.
  unfold display_is_exact in H. apply andb_true_iff in H as [Hc Hf].
  apply String.eqb_eq in Hc, Hf. split; assumption.
Qed.

Lemma display_exact_for_tenths_witness :
  -1000 <= 366 <= 1000
  /\ displayTemp (tenths 366) true = "37°C"
  /\ displayTemp (tenths 366) false = "98°F".
Proof.
  assert (-1000 <= 366 <= 1000) as Hk by lia.
  split; [exact Hk|].
  destruct (display_exact_for_tenths 366 Hk) as [Hc Hf].
  split; [rewrite Hc | rewrite Hf]; reflexivity.
Defined.

(** ** Refreshing twice *)

Lemma lookup_refreshed cityId updated l c :
  lookup cityId l = Some c ->
  WeatherData.id updated = cityId ->
  lookup cityId (refreshed cityId updated l) = Some updated.
Proof.
  unfold lookup, refreshed. intros Hc Hid.
  induction l as [|x l IH]; [discriminate|].
  cbn [map find] in *.
  destruct (Z.eqb_spec (WeatherData.id x) cityId) as [E|E].
  - apply Z.eqb_eq in Hid. now rewrite Hid.
  - apply Z.eqb_neq in E. rewrite E. now apply IH.
Qed.

Lemma refreshed_twice cityId first second l :
  WeatherData.id first = cityId ->
  refreshed cityId second (refreshed cityId first l) = refreshed cityId second l.
Proof.
  unfold refreshed. intros Hid. rewrite map_map. apply map_ext. intros x.
  destruct (Z.eqb_spec (WeatherData.id x) cityId) as [E|E].
  - apply Z.eqb_eq in Hid. now rewrite Hid.
  - apply Z.eqb_neq in E. now rewrite E.
Qed.

(** X17: two successful refreshes of the same id in a row, the first
    answered with the id that was asked for: the second asks for the city
    name the first answer carried, and the collection is what the second
    answer alone would have made of the original one. *)
Theorem refresh_twice_last_wins
  (env : Env) (w : World) (cityId : Z) (c first second : WeatherData.t) :
  lookup cityId (collection w) = Some c ->
  fetched env (List.length (requests w)) (WeatherData.city c) = Some first ->
  WeatherData.id first = cityId ->
  fetched env (S (List.length (requests w))) (WeatherData.city first)
  = Some second ->
  collection (refresh env cityId (refresh env cityId w))
  = refreshed cityId second (collection w)
  /\ requests (refresh env cityId (refresh env cityId w))
     = (requests w ++ [weather_url env (WeatherData.city c);
                       weather_url env (WeatherData.city first)])%list.
Proof.
  intros Hc Hf1 Hid Hf2.
  pose proof (refresh_success_collection env w cityId c first Hc Hf1) as E1.
  assert (requests (refresh env cityId w)
          = (requests w ++ [weather_url env (WeatherData.city c)])%list) as R1.
  { unfold refresh. now rewrite (refreshWeather_present env w cityId c Hc). }
  set (w1 := refresh env cityId w) in *.
  assert (lookup cityId (collection w1) = Some first) as Hc1.
  { rewrite E1. now apply (lookup_refreshed cityId first (collection w) c). }
  assert (fetched env (List.length (requests w1)) (WeatherData.city first)
          = Some second) as Hf2'.
  { rewrite R1, length_app. cbn [List.length]. now rewrite Nat.add_1_r. }
  split.
  - rewrite (refresh_success_collection env w1 cityId first second Hc1 Hf2').
    rewrite E1. now apply refreshed_twice.
  - unfold refresh at 1.
    rewrite (refreshWeather_present env w1 cityId first Hc1).
    cbn [snd requests]. rewrite R1, <- app_assoc. reflexivity.
Qed.

Lemma refresh_twice_last_wins_witness :
  map WeatherData.temperature
    (collection (refresh env_tokyo_twice 1850144
                   (refresh env_tokyo_twice 1850144 (mounted env_tokyo_twice))))
  = [Number.of_Z 12; Number.of_Z 25; Number.of_Z 32; Number.of_Z 15;
     Number.of_Z 22]
  /\ List.length
       (requests (refresh env_tokyo_twice 1850144
                    (refresh env_tokyo_twice 1850144 (mounted env_tokyo_twice))))
     = 7%nat.
Proof.
  destruct (refresh_twice_last_wins env_tokyo_twice (mounted env_tokyo_twice)
              1850144 _ _ _ eq_refl eq_refl eq_refl eq_refl) as [Hc Hr].
  split; [rewrite Hc | rewrite Hr]; reflexivity.
Defined.
